(** * Generation job orchestration: credits, queue service, controllers

    A shallow embedding of the credit service (src/services/creditService.js),
    the queue service (src/services/queueService.js) and the generation and
    content controllers (src/controllers/generationController.js,
    scheduleContent and publishContent of the content controller), with the
    properties of the orchestration design checked against them, followed by
    further properties of the same services: the connection life cycle and
    retry loop of the queue service, the ledger operations, renewals,
    purchases and plan changes of the credit service, and what the
    controllers write and leave alone.

    Conventions of the embedding.
    - JavaScript numbers that hold credits, word counts, retry counts and
      delays are integers ([Z], [N]).  The cost estimator is given twice: in
      IEEE double arithmetic, as JavaScript runs it ([Binary64]), and in
      exact rational arithmetic ([Q]), which the controllers are stated on;
      the two are proved to agree on word counts from 1 to 5000.
    - Object literals used as look-up tables and the [queues] registry are
      finite maps and sets of their own keys, read with [JS.get] and
      [JS.registered], which also find the members every object inherits
      from [Object.prototype]; the exact estimator alone reads own keys only.
    - Sequelize tables are finite maps keyed by the column the code searches
      on; database calls do not fail, except that a column declared
      [allowNull: false] rejects [undefined].
    - The trace of the queue service holds the message operations asked of
      the channel, not the declarations of exchanges and queues.
    - What the outside world decides (whether the broker accepts a
      connection, a publish, the uuids drawn) is an explicit argument. *)

From Stdlib Require Import ZArith QArith Qround Qminmax String List Lia Floats.
From stdpp Require Import base gmap strings list fin_maps.

Local Open Scope string_scope.
Local Open Scope Z_scope.
#[local] Set Warnings "-inexact-float".

(** ** JavaScript's [a || b] and [obj[key]] on the values the code applies
    them to *)
Module JS.

(** [a || d] for a possibly missing integer: [undefined] and [0] are falsy. *)
Definition or_num (a : option Z) (d : Z) : Z :=
  match a with
  | Some v => if v =? 0 then d else v
  | None => d
  end.

(** [a || d] for a possibly missing rational. *)
Definition or_rat (a : option Q) (d : Q) : Q :=
  match a with
  | Some v => if Qeq_bool v 0 then d else v
  | None => d
  end.

(** [a || d] for a possibly missing string: [undefined] and the empty
    string are falsy. *)
Definition or_str (a : option string) (d : string) : string :=
  match a with
  | Some v => if String.eqb v "" then d else v
  | None => d
  end.

(** Truthiness of a possibly missing boolean. *)
Definition truthy (a : option bool) : bool :=
  match a with
  | Some b => b
  | None => false
  end.

(** Destructuring default [{ x = d }]: only [undefined] takes the default. *)
Definition default_to {A} (a : option A) (d : A) : A :=
  match a with
  | Some v => v
  | None => d
  end.

(** The property names every object literal inherits from
    [Object.prototype]: those of ECMAScript and the accessors of its Annex B,
    which Node provides.  Each holds a function, [__proto__] the prototype
    object itself: all of them truthy, none of them a number. *)
Definition prototypeMembers : list string :=
  [ "constructor"; "hasOwnProperty"; "isPrototypeOf"; "propertyIsEnumerable";
    "toLocaleString"; "toString"; "valueOf"; "__proto__";
    "__defineGetter__"; "__defineSetter__"; "__lookupGetter__"; "__lookupSetter__" ].

Definition inherited (key : string) : bool :=
  existsb (String.eqb key) prototypeMembers.

(** What [obj[key]] finds in an object literal: an own property, a member
    inherited from [Object.prototype], or nothing ([undefined]). *)
Inductive Member (A : Type) :=
| Own (v : A)
| Inherited
| Absent.
Arguments Own {A} v.
Arguments Inherited {A}.
Arguments Absent {A}.

(** [obj[key]] for an object literal whose own properties are [table]. *)
Definition get {A} (table : gmap string A) (key : string) : Member A :=
  match table !! key with
  | Some v => Own v
  | None => if inherited key then Inherited else Absent
  end.

(** Truthiness of [registry[key]] for a registry object whose own
    properties, the keys in [registry], are all set to [true]. *)
Definition registered (registry : gset string) (key : string) : bool :=
  bool_decide (key ∈ registry) || inherited key.

End JS.

(** ** Errors thrown by the services *)
Inductive Error :=
| BrokerUnavailable                 (* amqp.connect / createChannel / assert* rejected *)
| QueueNotDefined (queue : string)  (* new Error(`Queue ${queue} is not defined`) *)
| QueueEmpty (queue : string)       (* new Error(`Queue ${queue} is empty`) *)
| MessageNotFound (messageId queue : string)
| ChannelClosed                     (* sendToQueue on a closed channel *)
| TypeError (what : string)         (* property read on null *)
| RangeError (what : string)        (* Invalid Date .toISOString() *)
| CreditAccountNotFound (userId : string)
| InsufficientCreditsError.         (* new Error('Insufficient credits') *)

Definition error_message (e : Error) : string :=
  match e with
  | BrokerUnavailable => "connect ECONNREFUSED"
  | QueueNotDefined q => "Queue " +:+ q +:+ " is not defined"
  | QueueEmpty q => "Queue " +:+ q +:+ " is empty"
  | MessageNotFound m q => "Message " +:+ m +:+ " not found in queue " +:+ q
  | ChannelClosed => "Channel closed"
  | TypeError w => "Cannot read properties of null (reading '" +:+ w +:+ "')"
  | RangeError w => w
  | CreditAccountNotFound u => "Credit account not found for user " +:+ u
  | InsufficientCreditsError => "Insufficient credits"
  end.

(** A call either returns or throws. *)
Inductive Result (A : Type) :=
| Returned (a : A)
| Thrown (e : Error).
Arguments Returned {A} a.
Arguments Thrown {A} e.

Definition is_thrown {A} (r : Result A) : bool :=
  match r with
  | Thrown _ => true
  | Returned _ => false
  end.

(** ** db/models *)

(** Prompt parameters read by the cost estimator. *)
Record PromptData := mkPromptData {
  wordCount : option Z;
  model : option string;
  seoOptimize : option bool
}.

(** The payload stored on a generation:
    [{ ...promptData, contentType, templateId }]. *)
Record StoredPrompt := mkStoredPrompt {
  prompt : PromptData;
  prompt_contentType : string;
  prompt_templateId : option string
}.

Module CreditAccount.
Record t := mk {
  creditsRemaining : Z;
  creditsUsed : Z;
  monthlyAllowance : Z
}.
Definition set_creditsRemaining (v : Z) (a : t) : t :=
  mk v (creditsUsed a) (monthlyAllowance a).
Definition set_creditsUsed (v : Z) (a : t) : t :=
  mk (creditsRemaining a) v (monthlyAllowance a).
End CreditAccount.

Module ContentGeneration.
(** [DataTypes.ENUM('queued', 'processing', 'completed', 'failed')] *)
Inductive Status := queued | processing | completed | failed.

#[global] Instance Status_eq_dec : EqDecision Status.
Proof. solve_decision. Defined.

Record t := mk {
  userId : string;
  contentItemId : string;
  promptData : StoredPrompt;
  aiProvider : string;
  status : Status;
  creditsUsed : Z;
  estimatedCredits : Z;
  error : option string
}.
Definition set_cancelled_fields (s : Status) (e : option string) (g : t) : t :=
  mk (userId g) (contentItemId g) (promptData g) (aiProvider g) s
     (creditsUsed g) (estimatedCredits g) e.
End ContentGeneration.

Module ContentItem.
(** [DataTypes.ENUM('draft', 'generated', 'published', 'archived')] *)
Inductive Status := draft | generated | published | archived.

#[global] Instance Status_eq_dec : EqDecision Status.
Proof. solve_decision. Defined.

Record t := mk {
  userId : string;
  templateId : option string;
  title : string;
  contentType : string;
  status : Status;
  scheduledAt : option Z;
  metadata : gmap string string
}.
Definition update_schedule (at_ : Z) (md : gmap string string) (c : t) : t :=
  mk (userId c) (templateId c) (title c) (contentType c) (status c) (Some at_) md.
End ContentItem.

Module Template.
Record t := mk {
  userId : string;
  isPublic : bool;
  isSystem : bool
}.
End Template.

(** The tables the controllers touch.  [creditAccounts] is keyed by the
    [userId] that [CreditAccount.findOne({ where: { userId } })] searches on,
    the others by primary key. *)
Record Db := mkDb {
  creditAccounts : gmap string CreditAccount.t;
  contentGenerations : gmap string ContentGeneration.t;
  contentItems : gmap string ContentItem.t;
  templates : gmap string Template.t
}.

Definition set_creditAccounts (m : gmap string CreditAccount.t) (d : Db) : Db :=
  mkDb m (contentGenerations d) (contentItems d) (templates d).
Definition set_contentGenerations (m : gmap string ContentGeneration.t) (d : Db) : Db :=
  mkDb (creditAccounts d) m (contentItems d) (templates d).
Definition set_contentItems (m : gmap string ContentItem.t) (d : Db) : Db :=
  mkDb (creditAccounts d) (contentGenerations d) m (templates d).

(** The user's balance, when the user has an account. *)
Definition balance (d : Db) (userId : string) : option Z :=
  CreditAccount.creditsRemaining <$> creditAccounts d !! userId.

(** ** creditService.js *)
Module CreditService.

Definition typeMultipliers : gmap string Q :=
  {[ "blog" := 1%Q;
     "product" := (8 # 10)%Q;
     "social" := (5 # 10)%Q;
     "email" := (7 # 10)%Q;
     "custom" := (12 # 10)%Q ]}.

Definition modelMultipliers : gmap string Q :=
  {[ "gpt-4" := (15 # 10)%Q;
     "gpt-3.5-turbo" := 1%Q;
     "default" := 1%Q ]}.

(** [modelMultipliers[promptData.model]]: a missing model reads no entry. *)
Definition lookup_model (m : option string) : option Q :=
  match m with
  | Some k => modelMultipliers !! k
  | None => None
  end.

(** [estimateGenerationCost] in exact arithmetic, with the tables read on
    their own keys.  It is the number the code computes whenever the content
    type and the model name no member of [Object.prototype] and the product
    in double arithmetic rounds to the same ceiling; [Binary64] below has the
    function as JavaScript runs it. *)
Definition estimateGenerationCost (promptData : PromptData) (contentType : string) : Z :=
  let requestedWordCount := JS.or_num (wordCount promptData) 1000 in
  let multiplier := JS.or_rat (typeMultipliers !! contentType) 1%Q in
  let modelMultiplier :=
    JS.or_rat (lookup_model (model promptData))
              (JS.default_to (modelMultipliers !! "default") 1%Q) in
  let seoMultiplier :=
    if JS.truthy (seoOptimize promptData) then (12 # 10)%Q else 1%Q in
  let estimatedCost :=
    Qceiling (inject_Z requestedWordCount * multiplier * modelMultiplier * seoMultiplier)%Q in
  Z.max estimatedCost 100.

(** The result object [{ success: true, remainingCredits }]. *)
Record CreditResult := mkCreditResult {
  success : bool;
  remainingCredits : Z
}.

Definition getCreditAccount (userId : string) (d : Db) : Result CreditAccount.t :=
  match creditAccounts d !! userId with
  | Some a => Returned a
  | None => Thrown (CreditAccountNotFound userId)
  end.

Definition hasEnoughCredits (userId : string) (requiredCredits : Z) (d : Db) : Result bool :=
  match getCreditAccount userId d with
  | Returned a => Returned (requiredCredits <=? CreditAccount.creditsRemaining a)
  | Thrown e => Thrown e
  end.

Definition deductCredits (userId : string) (credits : Z) (d : Db) : Db * Result CreditResult :=
  match getCreditAccount userId d with
  | Thrown e => (d, Thrown e)
  | Returned creditAccount =>
      if CreditAccount.creditsRemaining creditAccount <? credits
      then (d, Thrown InsufficientCreditsError)
      else
        let remaining := CreditAccount.creditsRemaining creditAccount - credits in
        let used := CreditAccount.creditsUsed creditAccount + credits in
        let creditAccount' :=
          CreditAccount.set_creditsUsed used
            (CreditAccount.set_creditsRemaining remaining creditAccount) in
        (set_creditAccounts (<[userId := creditAccount']> (creditAccounts d)) d,
         Returned (mkCreditResult true remaining))
  end.

Definition addCredits (userId : string) (credits : Z) (d : Db) : Db * Result CreditResult :=
  match getCreditAccount userId d with
  | Thrown e => (d, Thrown e)
  | Returned creditAccount =>
      let remaining := CreditAccount.creditsRemaining creditAccount + credits in
      let creditAccount' := CreditAccount.set_creditsRemaining remaining creditAccount in
      (set_creditAccounts (<[userId := creditAccount']> (creditAccounts d)) d,
       Returned (mkCreditResult true remaining))
  end.

End CreditService.

(** ** The cost estimator in IEEE double arithmetic

    [estimateGenerationCost] as the JavaScript runs it: the multipliers are
    the doubles the literals denote, the tables are object literals read with
    [table[key]], so that a key naming a member of [Object.prototype] finds
    that member, and the product is rounded after each multiplication.  The
    exact model above is this function on the requests where the two agree;
    the controllers are stated on it. *)
Module Binary64.

Definition typeMultipliers : gmap string float :=
  {[ "blog" := 1%float;
     "product" := 0.8%float;
     "social" := 0.5%float;
     "email" := 0.7%float;
     "custom" := 1.2%float ]}.

Definition modelMultipliers : gmap string float :=
  {[ "gpt-4" := 1.5%float;
     "gpt-3.5-turbo" := 1%float;
     "default" := 1%float ]}.

(** [modelMultipliers[promptData.model]]: a missing model reads the key
    [undefined], which the table does not have. *)
Definition lookup_model (m : option string) : JS.Member float :=
  match m with
  | Some k => JS.get modelMultipliers k
  | None => JS.Absent
  end.

(** [table[key] || d] as a factor of the product: a missing entry and the
    falsy doubles [0] and [NaN] give [d]; an inherited member is truthy, so it
    is kept, and as a number it is [NaN]. *)
Definition or_float (a : JS.Member float) (d : float) : float :=
  match a with
  | JS.Own v => if PrimFloat.is_zero v || PrimFloat.is_nan v then d else v
  | JS.Inherited => PrimFloat.nan
  | JS.Absent => d
  end.

(** The double holding an integer (exact below 2^53). *)
Definition of_int (z : Z) : float :=
  if z <? 0 then (- PrimFloat.of_uint63 (Uint63.of_Z (- z)))%float
  else PrimFloat.of_uint63 (Uint63.of_Z z).

(** [Math.ceil] of a double as an integer; [None] for NaN and the infinities,
    which [Math.max(_, 100)] hands on. *)
Definition ceil (x : float) : option Z :=
  match Prim2SF x with
  | S754_zero _ => Some 0
  | S754_finite negative m e =>
      let whole := if 0 <=? e then Z.pos m * 2 ^ e else Z.pos m / 2 ^ (- e) in
      let integral := if 0 <=? e then true else Z.pos m mod 2 ^ (- e) =? 0 in
      Some (if negative then - whole else if integral then whole else whole + 1)
  | S754_infinity _ => None
  | S754_nan => None
  end.

Definition estimateGenerationCost (promptData : PromptData) (contentType : string)
  : option Z :=
  let requestedWordCount := of_int (JS.or_num (wordCount promptData) 1000) in
  let multiplier := or_float (JS.get typeMultipliers contentType) 1%float in
  let modelMultiplier :=
    or_float (lookup_model (model promptData))
             (JS.default_to (modelMultipliers !! "default") 1%float) in
  let seoMultiplier :=
    if JS.truthy (seoOptimize promptData) then 1.2%float else 1%float in
  match ceil (requestedWordCount * multiplier * modelMultiplier * seoMultiplier)%float with
  | Some estimatedCost => Some (Z.max estimatedCost 100)
  | None => None
  end.

(** The multipliers the two tables and the SEO switch can yield, each double
    beside the decimal it is written as. *)
Definition type_values : list (float * Q) :=
  [ (1%float, 1%Q); (0.8%float, (8 # 10)%Q); (0.5%float, (5 # 10)%Q);
    (0.7%float, (7 # 10)%Q); (1.2%float, (12 # 10)%Q) ].
Definition model_values : list (float * Q) :=
  [ (1.5%float, (15 # 10)%Q); (1%float, 1%Q) ].
Definition seo_values : list (float * Q) :=
  [ (1.2%float, (12 # 10)%Q); (1%float, 1%Q) ].

(** Double and exact arithmetic give the same ceiling for a word count. *)
Definition agree_at (w : Z) (t m s : float * Q) : bool :=
  match ceil (of_int w * t.1 * m.1 * s.1)%float with
  | Some c => c =? Qceiling (inject_Z w * t.2 * m.2 * s.2)%Q
  | None => false
  end.

Definition agree (w : Z) : bool :=
  forallb (λ t, forallb (λ m, forallb (λ s, agree_at w t m s) seo_values) model_values)
          type_values.

(** The word counts [1 .. n]. *)
Definition word_counts (n : nat) : list Z := map Z.of_nat (seq 1 n).

End Binary64.

(** ** queueService.js *)

(** The JSON payloads the controllers publish. *)
Inductive Message :=
| GenerationJob (generationId userId contentItemId : string)
                (promptData : StoredPrompt) (aiProvider : string)
| PublishingJob (id contentItemId userId : string) (integrationId : option string)
| SchedulingJob (id contentItemId userId : string) (integrationId : option string)
                (scheduledAt : string).

(** [message.id || message.generationId || undefined] *)
Definition message_messageId (m : Message) : option string :=
  match m with
  | GenerationJob generationId _ _ _ _ => Some generationId
  | PublishingJob id _ _ _ => Some id
  | SchedulingJob id _ _ _ _ => Some id
  end.

(** The redelivery headers the consumer writes and reads. *)
Record Headers := mkHeaders {
  x_retry_count : option N;
  x_original_queue : option string
}.

Record Properties := mkProperties {
  persistent : bool;
  messageId : option string;
  headers : option Headers
}.

(** An amqp message: content and properties. *)
Record Envelope := mkEnvelope {
  content : Message;
  properties : Properties
}.

(** The message operations the service asks of its channel, oldest first:
    publishing, acknowledging, rejecting, and registering a consumer with its
    prefetch.  The exchange and queue declarations of [setupQueues], the queue
    check and the temporary consumer's deliveries of [removeFromQueue] and the
    cancelling of consumers are not recorded. *)
Inductive ChannelOp :=
| SendToQueue (queue : string) (msg : Envelope)
| Ack (msg : Envelope)
| Nack (msg : Envelope) (allUpTo requeue : bool)
| Consume (queue : string)
| Prefetch (count : Z).

(** How the broker answers a connection attempt: refused outright, refused
    at [createChannel], failing inside [setupQueues] after [done] queues were
    set up, or accepted. *)
Inductive ConnectOutcome :=
| ConnectRefused
| ChannelRefused
| SetupFails (done : nat)
| ConnectAccepted.

(** The broker's side of one service call. *)
Record BrokerEnv := mkBrokerEnv {
  connectOutcome : ConnectOutcome;
  sendAccepted : bool;
  messageCount : Z;
  foundInTime : bool
}.

Record QueueOptions := mkQueueOptions {
  durable : bool;
  deadLetterExchange : string
}.

Record ConsumeOptions := mkConsumeOptions {
  prefetch : option Z;
  maxRetries : option Z;
  retryDelay : option Z
}.

(** An error thrown by a message handler.  The consumer only logs it; the
    kind is what a worker's own classification would attach to it. *)
Inductive ErrorKind := transient | permanent.

Record HandlerError := mkHandlerError {
  handler_message : string;
  handler_kind : ErrorKind
}.

(** What the consumer callback does with a delivery. *)
Inductive Disposition :=
| Acknowledged
| RetryScheduled (delay : Z) (retryOptions : Properties)
| DeadLettered.

Module QueueService.

Record t := mk {
  connected : bool;
  connecting : bool;
  channel : bool;              (* [this.channel] is not null *)
  queues : gset string;        (* the own keys of [this.queues], all set to [true] *)
  reconnectAttempts : nat;
  trace : list ChannelOp
}.

(** Queue definitions, in the order [Object.entries] yields them. *)
Definition queueDefinitions : list (string * QueueOptions) :=
  [ ("content-generation", mkQueueOptions true "dlx.content-generation");
    ("content-publishing", mkQueueOptions true "dlx.content-publishing");
    ("notification", mkQueueOptions true "dlx.notification") ].

Definition maxReconnectAttempts : nat := 10.

(** The state the constructor leaves. *)
Definition new : t := mk false false false ∅ 0 [].

Definition handleConnectionError (s : t) : t :=
  let attempts :=
    if (reconnectAttempts s <? maxReconnectAttempts)%nat
    then S (reconnectAttempts s) else reconnectAttempts s in
  mk false (connecting s) false (queues s) attempts (trace s).

(** [setupQueues], run until the first [n] definitions are set up:
    each sets [this.queues[queueName] = true]. *)
Definition setupQueues (n : nat) (s : t) : t :=
  mk (connected s) (connecting s) (channel s)
     (queues s ∪ list_to_set (fst <$> take n queueDefinitions))
     (reconnectAttempts s) (trace s).

Definition connect (env : BrokerEnv) (s : t) : t * Result unit :=
  if connected s || connecting s then (s, Returned tt)
  else
    let failed (s' : t) :=
      handleConnectionError
        (mk (connected s') false (channel s') (queues s')
            (reconnectAttempts s') (trace s')) in
    match connectOutcome env with
    | ConnectRefused => (failed s, Thrown BrokerUnavailable)
    | ChannelRefused => (failed s, Thrown BrokerUnavailable)
    | SetupFails done =>
        let s1 := mk (connected s) true true (queues s)
                     (reconnectAttempts s) (trace s) in
        if (done <? length queueDefinitions)%nat
        then (failed (setupQueues done s1), Thrown BrokerUnavailable)
        else
          let s2 := setupQueues (length queueDefinitions) s1 in
          (mk true false true (queues s2) 0 (trace s2), Returned tt)
    | ConnectAccepted =>
        let s1 := mk (connected s) true true (queues s)
                     (reconnectAttempts s) (trace s) in
        let s2 := setupQueues (length queueDefinitions) s1 in
        (mk true false true (queues s2) 0 (trace s2), Returned tt)
    end.

Definition ensureConnection (env : BrokerEnv) (s : t) : t * Result unit :=
  if connected s then (s, Returned tt) else connect env s.

Definition push (op : ChannelOp) (s : t) : t :=
  mk (connected s) (connecting s) (channel s) (queues s)
     (reconnectAttempts s) (trace s ++ [op]).

Definition enqueue (env : BrokerEnv) (queue : string) (message : Message) (s : t)
  : t * Result bool :=
  match ensureConnection env s with
  | (s1, Thrown e) => (s1, Thrown e)
  | (s1, Returned _) =>
      if negb (JS.registered (queues s1) queue)
      then (s1, Thrown (QueueNotDefined queue))
      else if negb (channel s1)
      then (s1, Thrown (TypeError "sendToQueue"))
      else if negb (sendAccepted env)
      then (s1, Thrown ChannelClosed)
      else
        let msg := mkEnvelope message
                     (mkProperties true (message_messageId message) None) in
        (push (SendToQueue queue msg) s1, Returned true)
  end.

(** [consume(queue, handler, options)] up to the registration of the
    callback; what the callback does with a delivery is [onMessage] below. *)
Definition consume (env : BrokerEnv) (queue : string) (options : ConsumeOptions)
           (consumerTag : string) (s : t) : t * Result string :=
  match ensureConnection env s with
  | (s1, Thrown e) => (s1, Thrown e)
  | (s1, Returned _) =>
      if negb (JS.registered (queues s1) queue)
      then (s1, Thrown (QueueNotDefined queue))
      else if negb (channel s1)
      then (s1, Thrown (TypeError "prefetch"))
      else
        (push (Consume queue) (push (Prefetch (JS.or_num (prefetch options) 1)) s1),
         Returned consumerTag)
  end.

(** [(msg.properties.headers && msg.properties.headers['x-retry-count']) || 0] *)
Definition retryCountOf (msg : Envelope) : N :=
  match headers (properties msg) with
  | Some h => match x_retry_count h with Some c => c | None => 0%N end
  | None => 0%N
  end.

(** [(options.retryDelay || 5000) * Math.pow(2, retryCount)] *)
Definition backoff (options : ConsumeOptions) (retryCount : N) : Z :=
  JS.or_num (retryDelay options) 5000 * 2 ^ Z.of_N retryCount.

(** The [catch] branch of the consumer callback: retry with a delay while
    the retry count is below [options.maxRetries || 3], otherwise reject
    without requeue, which routes the message to the dead-letter exchange. *)
Definition onHandlerError (queue : string) (options : ConsumeOptions)
           (msg : Envelope) (error : HandlerError) : Disposition :=
  let retryCount := retryCountOf msg in
  if Z.of_N retryCount <? JS.or_num (maxRetries options) 3
  then
    let retryOptions :=
      mkProperties true (messageId (properties msg))
        (Some (mkHeaders (Some (retryCount + 1)%N) (Some queue))) in
    RetryScheduled (backoff options retryCount) retryOptions
  else DeadLettered.

(** The consumer callback on one delivery, given how the handler ended, for
    a service that holds a channel (with [this.channel] null the [ack] and
    [nack] calls throw instead). *)
Definition onMessage (queue : string) (options : ConsumeOptions) (msg : Envelope)
           (outcome : option HandlerError) (s : t) : t * Disposition :=
  match outcome with
  | None => (push (Ack msg) s, Acknowledged)
  | Some error =>
      match onHandlerError queue options msg error with
      | DeadLettered => (push (Nack msg false false) s, DeadLettered)
      | d => (s, d)
      end
  end.

(** The retry timer firing: republish with the new headers and ack the
    original; if the republish throws, reject to the dead-letter queue. *)
Definition onRetryTimer (env : BrokerEnv) (queue : string) (msg : Envelope)
           (retryOptions : Properties) (s : t) : t :=
  if channel s && sendAccepted env
  then push (Ack msg) (push (SendToQueue queue (mkEnvelope (content msg) retryOptions)) s)
  else if channel s then push (Nack msg false false) s
  else s.

(** [removeFromQueue]: the checks before the temporary consumer, its
    registration, then whether the matching delivery was seen before [found]
    is read.  What the temporary consumer does with its deliveries (ack of the
    match, nack with requeue of the others) and its cancelling after five
    seconds change no field of the service and are not recorded. *)
Definition removeFromQueue (env : BrokerEnv) (queue : string) (messageId : string) (s : t)
  : t * Result bool :=
  match ensureConnection env s with
  | (s1, Thrown e) => (s1, Thrown e)
  | (s1, Returned _) =>
      if negb (JS.registered (queues s1) queue)
      then (s1, Thrown (QueueNotDefined queue))
      else if negb (channel s1)
      then (s1, Thrown (TypeError "assertQueue"))
      else if messageCount env =? 0
      then (s1, Thrown (QueueEmpty queue))
      else
        let s2 := push (Consume queue) s1 in
        if foundInTime env then (s2, Returned true)
        else (s2, Thrown (MessageNotFound messageId queue))
  end.

(** [close()]: closes channel and connection when present and then clears
    the connection fields; [queues] and [reconnectAttempts] are left alone.
    [refused] is the error with which the channel or the connection rejects
    its [close()], when one of them is held and does: the fields are cleared
    only after both calls have returned. *)
Definition close (refused : option Error) (s : t) : t * Result bool :=
  match refused with
  | Some e => (s, Thrown e)
  | None =>
      (mk false (connecting s) false (queues s) (reconnectAttempts s) (trace s),
       Returned true)
  end.

(** [cancelConsumer(consumerTag)]; [refused] is the error with which the
    channel rejects the [cancel], if it does. *)
Definition cancelConsumer (env : BrokerEnv) (refused : option Error)
           (consumerTag : string) (s : t) : t * Result bool :=
  match ensureConnection env s with
  | (s1, Thrown e) => (s1, Thrown e)
  | (s1, Returned _) =>
      if negb (channel s1) then (s1, Thrown (TypeError "cancel"))
      else match refused with
           | Some e => (s1, Thrown e)
           | None => (s1, Returned true)
           end
  end.

(** The states the singleton can be in when calls do not overlap: the
    constructor's state, then any sequence of calls and events, each call run
    to completion.  [QueueLifecycle.running] below has the connection
    attempts interleaved with the other calls and events. *)
Inductive reachable : t → Prop :=
| reach_new : reachable new
| reach_connect env s : reachable s → reachable (connect env s).1
| reach_connection_error s : reachable s → reachable (handleConnectionError s)
| reach_enqueue env queue message s :
    reachable s → reachable (enqueue env queue message s).1
| reach_consume env queue options consumerTag s :
    reachable s → reachable (consume env queue options consumerTag s).1
| reach_remove env queue messageId s :
    reachable s → reachable (removeFromQueue env queue messageId s).1
| reach_cancel env refused consumerTag s :
    reachable s → reachable (cancelConsumer env refused consumerTag s).1
| reach_close refused s : reachable s → reachable (close refused s).1
| reach_message queue options msg outcome s :
    reachable s → reachable (onMessage queue options msg outcome s).1
| reach_retry_timer env queue msg retryOptions s :
    reachable s → reachable (onRetryTimer env queue msg retryOptions s).

(** The names given a definition in [queueDefinitions]. *)
Definition declared : gset string := list_to_set (fst <$> queueDefinitions).

End QueueService.

(** ** The process state: database and queue service singleton *)
Record World := mkWorld {
  db : Db;
  queueService : QueueService.t
}.

(** A message handler passed to [consume]: it may write to the database and
    either resolves or throws. *)
Definition Handler : Type := Message → Db → Db * option HandlerError.

(** One delivery to a consumer registered with [consume(queue, handler,
    options)]: run the handler, then the callback's ack / retry /
    dead-letter logic.  The callback itself never touches the database. *)
Definition deliver (queue : string) (handler : Handler) (options : ConsumeOptions)
           (msg : Envelope) (w : World) : World * Disposition :=
  let '(d', outcome) := handler (content msg) (db w) in
  let '(q', disposition) :=
    QueueService.onMessage queue options msg outcome (queueService w) in
  (mkWorld d' q', disposition).

(** ** HTTP responses of the controllers *)
Inductive Body :=
| ValidationErrors (errors : list string)
| ErrorBody (error : string)
| InsufficientCredits (error : string) (required available : Z)
| GenerationQueued (message generationId contentItemId : string)
                   (estimatedCost : Z) (status : ContentGeneration.Status)
| GenerationCancelled (message generationId : string) (creditsRefunded : Z)
| ContentScheduled (message schedulingJobId contentItemId scheduledAt : string).

(** A controller either answers [res.status(code).json(body)] or hands the
    caught error to [next]. *)
Inductive Response :=
| Json (code : Z) (body : Body)
| Next (e : Error).

(** ** generationController.js *)
Module GenerationController.

Record RequestBody := mkRequestBody {
  title : option string;
  contentType : option string;
  templateId : option string;
  promptData : PromptData;
  aiProvider : option string;
  isNewContent : option bool;
  contentItemId : option string
}.

Record Request := mkRequest {
  user_id : string;                 (* req.user.id *)
  validation : list string;         (* validationResult(req).array() *)
  body : RequestBody
}.

(** The uuids drawn by [uuidv4()], in call order. *)
Record Uuids := mkUuids {
  generationUuid : string;
  contentItemUuid : string
}.

(** A string is truthy unless it is missing or empty. *)
Definition given (s : option string) : option string :=
  match s with
  | Some v => if String.eqb v "" then None else Some v
  | None => None
  end.

(** [Template.findOne({ where: { id, $or: [{ userId }, { isPublic }, { isSystem }] } })] *)
Definition findTemplate (d : Db) (id userId : string) : option Template.t :=
  match templates d !! id with
  | Some t =>
      if bool_decide (Template.userId t = userId) || Template.isPublic t || Template.isSystem t
      then Some t else None
  | None => None
  end.

(** [ContentItem.findOne({ where: { id, userId } })], with the id found. *)
Definition findContentItem (d : Db) (id userId : string) : option (string * ContentItem.t) :=
  match contentItems d !! id with
  | Some c => if bool_decide (ContentItem.userId c = userId) then Some (id, c) else None
  | None => None
  end.

(** [ContentGeneration.findOne({ where: { id, userId } })] *)
Definition findGeneration (d : Db) (id userId : string) : option ContentGeneration.t :=
  match contentGenerations d !! id with
  | Some g => if bool_decide (ContentGeneration.userId g = userId) then Some g else None
  | None => None
  end.

Definition createGenerationRequest (env : BrokerEnv) (ids : Uuids)
           (req : Request) (w : World) : World * Response :=
  match validation req with
  | _ :: _ => (w, Json 400 (ValidationErrors (validation req)))
  | [] =>
  let userId := user_id req in
  let b := body req in
  let contentType := JS.default_to (contentType b) "blog" in
  let isNewContent := JS.default_to (isNewContent b) true in
  (* updating existing content: the item must exist and belong to the user *)
  let existing :=
    match negb isNewContent, given (contentItemId b) with
    | true, Some cid => Some (findContentItem (db w) cid userId)
    | _, _ => None
    end in
  match existing with
  | Some None => (w, Json 404 (ErrorBody "Content item not found or access denied"))
  | _ =>
  let contentItem := match existing with Some found => found | None => None end in
  let templateLookup :=
    match given (templateId b) with
    | Some tid => Some (tid, findTemplate (db w) tid userId)
    | None => None
    end in
  match templateLookup with
  | Some (_, None) => (w, Json 404 (ErrorBody "Template not found or access denied"))
  | _ =>
  let template_id :=
    match templateLookup with Some (tid, Some _) => Some tid | _ => None end in
  match creditAccounts (db w) !! userId with
  | None => (w, Json 404 (ErrorBody "Credit account not found"))
  | Some creditAccount =>
  let estimatedCost :=
    CreditService.estimateGenerationCost (promptData b) contentType in
  if CreditAccount.creditsRemaining creditAccount <? estimatedCost
  then (w, Json 402 (InsufficientCredits "Insufficient credits for this generation"
                       estimatedCost (CreditAccount.creditsRemaining creditAccount)))
  else
  let generationId := generationUuid ids in
  (* create the content item when the request is for new content *)
  let '(d1, contentItem) :=
    if isNewContent
    then
      let item :=
        ContentItem.mk userId template_id
          (JS.or_str (title b) "Untitled Content") contentType ContentItem.draft None
          {[ "generationRequest" := "true"; "generationId" := generationId ]} in
      (set_contentItems (<[contentItemUuid ids := item]> (contentItems (db w))) (db w),
       Some (contentItemUuid ids, item))
    else (db w, contentItem) in
  match contentItem with
  | None => (mkWorld d1 (queueService w), Next (TypeError "id"))
  | Some (itemId, _) =>
  (* create the generation record *)
  let generation :=
    ContentGeneration.mk userId itemId
      (mkStoredPrompt (promptData b) contentType template_id)
      (JS.or_str (aiProvider b) "default")
      ContentGeneration.queued 0 estimatedCost None in
  let d2 :=
    set_contentGenerations (<[generationId := generation]> (contentGenerations d1)) d1 in
  (* reserve credits *)
  let creditAccount' :=
    CreditAccount.set_creditsRemaining
      (CreditAccount.creditsRemaining creditAccount - estimatedCost) creditAccount in
  let d3 := set_creditAccounts (<[userId := creditAccount']> (creditAccounts d2)) d2 in
  (* queue the generation job *)
  match QueueService.enqueue env "content-generation"
          (GenerationJob generationId userId itemId
             (ContentGeneration.promptData generation)
             (ContentGeneration.aiProvider generation))
          (queueService w) with
  | (q', Thrown e) => (mkWorld d3 q', Next e)
  | (q', Returned _) =>
      (mkWorld d3 q',
       Json 202 (GenerationQueued "Content generation request queued successfully"
                   generationId itemId estimatedCost ContentGeneration.queued))
  end end end end end end.

Definition cancelGeneration (env : BrokerEnv) (id userId : string) (w : World)
  : World * Response :=
  match findGeneration (db w) id userId with
  | None => (w, Json 404 (ErrorBody "Generation request not found"))
  | Some generation =>
      if negb (bool_decide (ContentGeneration.status generation = ContentGeneration.queued))
      then (w, Json 400 (ErrorBody
              "Cannot cancel generation that is already processing or completed"))
      else
        (* update generation status *)
        let generation' :=
          ContentGeneration.set_cancelled_fields ContentGeneration.failed
            (Some "Cancelled by user") generation in
        let d1 :=
          set_contentGenerations
            (<[id := generation']> (contentGenerations (db w))) (db w) in
        (* refund credits *)
        let d2 :=
          match creditAccounts d1 !! userId with
          | Some creditAccount =>
              let creditAccount' :=
                CreditAccount.set_creditsRemaining
                  (CreditAccount.creditsRemaining creditAccount
                   + ContentGeneration.estimatedCredits generation') creditAccount in
              set_creditAccounts (<[userId := creditAccount']> (creditAccounts d1)) d1
          | None => d1
          end in
        (* try to remove from queue; a failure is only logged *)
        let '(q', _) :=
          QueueService.removeFromQueue env "content-generation" id (queueService w) in
        (mkWorld d2 q',
         Json 200 (GenerationCancelled "Generation request cancelled successfully"
                     id (ContentGeneration.estimatedCredits generation')))
  end.

End GenerationController.

(** ** contentController.js: scheduleContent *)
Module ContentController.

(** [new Date(scheduledAt)]: an Invalid Date, or a time in milliseconds
    with its ISO rendering. *)
Inductive ParsedDate :=
| InvalidDate
| ValidDate (ms : Z) (iso : string).

Record ScheduleRequest := mkScheduleRequest {
  params_id : string;               (* req.params.id *)
  user_id : string;                 (* req.user.id *)
  user_role : string;               (* req.user.role *)
  validation : list string;
  scheduledAt : string;
  scheduledDate : ParsedDate;       (* new Date(scheduledAt) *)
  integrationId : option string;
  publishOptions : string
}.

Definition scheduleContent (env : BrokerEnv) (now : Z) (schedulingJobId : string)
           (req : ScheduleRequest) (w : World) : World * Response :=
  match validation req with
  | _ :: _ => (w, Json 400 (ValidationErrors (validation req)))
  | [] =>
  let id := params_id req in
  let userId := user_id req in
  match contentItems (db w) !! id with
  | None => (w, Json 404 (ErrorBody "Content item not found"))
  | Some contentItem =>
  if negb (bool_decide (ContentItem.userId contentItem = userId))
     && negb (bool_decide (user_role req = "admin"))
  then (w, Json 403 (ErrorBody "Access denied"))
  else if negb (bool_decide (ContentItem.status contentItem = ContentItem.generated))
          && negb (bool_decide (ContentItem.status contentItem = ContentItem.draft))
  then (w, Json 400 (ErrorBody
          "Content must be in generated or draft status to schedule"))
  else
  let in_past :=
    match scheduledDate req with
    | ValidDate ms _ => ms <=? now
    | InvalidDate => false
    end in
  if in_past
  then (w, Json 400 (ErrorBody "Scheduled date must be in the future"))
  else
  match scheduledDate req with
  | InvalidDate => (w, Next (RangeError "Invalid time value"))
  | ValidDate ms iso =>
  (* update content item with scheduling info *)
  let metadata :=
    <["publishOptions" := publishOptions req]>
      (<["integrationId" := JS.default_to (integrationId req) "undefined"]>
         (<["scheduledAt" := iso]>
            (<["scheduledBy" := userId]> (ContentItem.metadata contentItem)))) in
  let d1 :=
    set_contentItems
      (<[id := ContentItem.update_schedule ms metadata contentItem]>
         (contentItems (db w))) (db w) in
  (* queue scheduling job *)
  match QueueService.enqueue env "content-scheduling"
          (SchedulingJob schedulingJobId id userId (integrationId req)
             (scheduledAt req))
          (queueService w) with
  | (q', Thrown e) => (mkWorld d1 q', Next e)
  | (q', Returned _) =>
      (mkWorld d1 q',
       Json 200 (ContentScheduled "Content scheduled for publishing"
                   schedulingJobId id (scheduledAt req)))
  end end end end.

End ContentController.

(** ** The design's statements, for comparison with the code *)
Module Design.

(** The cost estimate as the design words it: a case analysis on the
    content type and the model, unknown ones counting 1. *)
Definition type_multiplier (contentType : string) : Q :=
  if String.eqb contentType "blog" then 1%Q
  else if String.eqb contentType "product" then (8 # 10)%Q
  else if String.eqb contentType "social" then (5 # 10)%Q
  else if String.eqb contentType "email" then (7 # 10)%Q
  else if String.eqb contentType "custom" then (12 # 10)%Q
  else 1%Q.

Definition model_multiplier (model : option string) : Q :=
  match model with
  | Some m => if String.eqb m "gpt-4" then (15 # 10)%Q else 1%Q
  | None => 1%Q
  end.

Definition seo_multiplier (seoOptimize : option bool) : Q :=
  match seoOptimize with
  | Some true => (12 # 10)%Q
  | _ => 1%Q
  end.

Definition requested_words (wordCount : option Z) : Z :=
  match wordCount with
  | Some 0 | None => 1000
  | Some n => n
  end.

Definition estimate (promptData : PromptData) (contentType : string) : Z :=
  Z.max 100
    (Qceiling (inject_Z (requested_words (wordCount promptData))
               * type_multiplier contentType
               * model_multiplier (model promptData)
               * seo_multiplier (seoOptimize promptData))%Q).

(** The same estimate with the product taken as JavaScript takes it: in
    double arithmetic, from left to right, rounded after each
    multiplication, the multipliers being the doubles nearest to the
    decimals. *)
Definition type_multiplier64 (contentType : string) : float :=
  if String.eqb contentType "blog" then 1%float
  else if String.eqb contentType "product" then 0.8%float
  else if String.eqb contentType "social" then 0.5%float
  else if String.eqb contentType "email" then 0.7%float
  else if String.eqb contentType "custom" then 1.2%float
  else 1%float.

Definition model_multiplier64 (model : option string) : float :=
  match model with
  | Some m => if String.eqb m "gpt-4" then 1.5%float else 1%float
  | None => 1%float
  end.

Definition seo_multiplier64 (seoOptimize : option bool) : float :=
  match seoOptimize with
  | Some true => 1.2%float
  | _ => 1%float
  end.

Definition estimate64 (promptData : PromptData) (contentType : string) : option Z :=
  match Binary64.ceil
          (Binary64.of_int (requested_words (wordCount promptData))
           * type_multiplier64 contentType
           * model_multiplier64 (model promptData)
           * seo_multiplier64 (seoOptimize promptData))%float with
  | Some c => Some (Z.max 100 c)
  | None => None
  end.

(** The design's retry policy: [decide(attempt, kind)]. *)
Inductive Decision :=
| Retry (delay : Z)
| DeadLetter.

Definition decide (maxAttempts base cap : Z) (attempt : Z) (kind : ErrorKind) : Decision :=
  match kind with
  | permanent => DeadLetter
  | transient =>
      if attempt <? maxAttempts
      then Retry (Z.min cap (base * 2 ^ (attempt - 1)))
      else DeadLetter
  end.

(** The decision the consumer callback took, in the design's vocabulary. *)
Definition decision_of (d : Disposition) : option Decision :=
  match d with
  | RetryScheduled delay _ => Some (Retry delay)
  | DeadLettered => Some DeadLetter
  | Acknowledged => None
  end.

(** The delivery attempt a message is on: the first delivery carries no
    retry count, each republish adds one. *)
Definition attempt_of (msg : Envelope) : Z :=
  Z.of_N (QueueService.retryCountOf msg) + 1.

(** A cancelled job as the code records it: status [failed] with the
    error text ['Cancelled by user']. *)
Definition cancelled (g : ContentGeneration.t) : Prop :=
  ContentGeneration.status g = ContentGeneration.failed
  ∧ ContentGeneration.error g = Some "Cancelled by user".

(** The answer to a cancel request on a job that is not queued. *)
Definition NotCancellable : Response :=
  Json 400 (ErrorBody "Cannot cancel generation that is already processing or completed").

End Design.

(** ** Ledger operations run one after the other *)
Inductive LedgerOp :=
| Submit (env : BrokerEnv) (ids : GenerationController.Uuids)
         (req : GenerationController.Request)
| Cancel (env : BrokerEnv) (id userId : string)
| Deduct (userId : string) (credits : Z)
| Add (userId : string) (credits : Z).

Definition step (op : LedgerOp) (w : World) : World :=
  match op with
  | Submit env ids req => (GenerationController.createGenerationRequest env ids req w).1
  | Cancel env id userId => (GenerationController.cancelGeneration env id userId w).1
  | Deduct userId credits =>
      mkWorld (CreditService.deductCredits userId credits (db w)).1 (queueService w)
  | Add userId credits =>
      mkWorld (CreditService.addCredits userId credits (db w)).1 (queueService w)
  end.

(** The states passed through, the starting one included. *)
Fixpoint states (ops : list LedgerOp) (w : World) : list World :=
  match ops with
  | [] => [w]
  | op :: ops' => w :: states ops' (step op w)
  end.

(** Amounts handed to [addCredits] are credit quantities. *)
Definition amount_ok (op : LedgerOp) : Prop :=
  match op with
  | Add _ credits => 0 ≤ credits
  | _ => True
  end.

(** No balance is negative. *)
Definition balances_nonneg (d : Db) : Prop :=
  map_Forall (λ _ a, 0 ≤ CreditAccount.creditsRemaining a) (creditAccounts d).

(** No generation holds a negative reservation. *)
Definition reservations_nonneg (d : Db) : Prop :=
  map_Forall (λ _ g, 0 ≤ ContentGeneration.estimatedCredits g) (contentGenerations d).

Definition ledger_ok (d : Db) : Prop :=
  balances_nonneg d ∧ reservations_nonneg d.


(** The estimate [createGenerationRequest] computes for a request. *)
Definition cost_of (req : GenerationController.Request) : Z :=
  CreditService.estimateGenerationCost
    (GenerationController.promptData (GenerationController.body req))
    (JS.default_to (GenerationController.contentType (GenerationController.body req)) "blog").

(** A response that is not the 202 of an accepted submission. *)
Definition rejection (r : Response) : Prop :=
  match r with
  | Json code _ => code = 400 ∨ code = 402 ∨ code = 404
  | Next e => e = TypeError "id"
  end.

(** ** Scenario data: a user with 1000 credits asking for 300 words *)
Module Scenario.

Definition alice : string := "user-1".

Definition db0 : Db :=
  mkDb {[ alice := CreditAccount.mk 1000 0 1000 ]} ∅ ∅ ∅.

Definition world0 : World := mkWorld db0 QueueService.new.

Definition ids : GenerationController.Uuids :=
  GenerationController.mkUuids "gen-1" "item-1".

Definition request (words : Z) : GenerationController.Request :=
  GenerationController.mkRequest alice []
    (GenerationController.mkRequestBody (Some "Post") None None
       (mkPromptData (Some words) None None) None None None).

Definition broker_up : BrokerEnv := mkBrokerEnv ConnectAccepted true 1 false.
Definition broker_down : BrokerEnv := mkBrokerEnv ConnectRefused false 0 false.

Definition defaults : ConsumeOptions := mkConsumeOptions None None None.

(** The job as first published, and as redelivered with a retry count. *)
Definition job : Message :=
  GenerationJob "gen-1" alice "item-1"
    (mkStoredPrompt (mkPromptData (Some 300) None None) "blog" None) "default".

Definition first_delivery : Envelope :=
  mkEnvelope job (mkProperties true (Some "gen-1") None).

Definition redelivery (retryCount : N) : Envelope :=
  mkEnvelope job
    (mkProperties true (Some "gen-1")
       (Some (mkHeaders (Some retryCount) (Some "content-generation")))).

(** A worker that cannot reach the provider: throws, writes nothing. *)
Definition timing_out : Handler :=
  λ _ d, (d, Some (mkHandlerError "provider timeout" transient)).

Definition invalid_prompt : HandlerError := mkHandlerError "invalid prompt" permanent.

Definition schedule_request : ContentController.ScheduleRequest :=
  ContentController.mkScheduleRequest "item-1" alice "user" []
    "2030-01-01T00:00:00.000Z"
    (ContentController.ValidDate 1893456000000 "2030-01-01T00:00:00.000Z")
    None "{}".

End Scenario.

(** ** queueService.js: the connection's life cycle and the retry loop *)
Module QueueLifecycle.

Import QueueService.

(** What [handleConnectionError] arranges: a reconnection after a delay, or
    the ['reconnect_failed'] event once the attempts are used up. *)
Inductive ReconnectPlan :=
| ReconnectIn (delay : Q)
| ReconnectFailed.

(** [this.reconnectDelay]: 5 seconds to start with. *)
Definition reconnectDelay : Q := 5000.

(** [Math.min(30000, this.reconnectDelay * Math.pow(1.5, this.reconnectAttempts))]
    (powers of 1.5 up to the tenth and their products with 5000 are exact in
    double arithmetic). *)
Definition backoffDelay (attempts : nat) : Q :=
  Qmin 30000 (reconnectDelay * (15 # 10) ^ Z.of_nat attempts).

(** The branch [handleConnectionError] takes in state [s]; the state it
    leaves is [QueueService.handleConnectionError s]. *)
Definition reconnectPlan (s : t) : ReconnectPlan :=
  if (reconnectAttempts s <? maxReconnectAttempts)%nat
  then ReconnectIn (backoffDelay (reconnectAttempts s))
  else ReconnectFailed.

(** The shape of the singleton between two calls when calls do not
    overlap. *)
Definition well_formed (s : t) : Prop :=
  connecting s = false
  ∧ (reconnectAttempts s ≤ maxReconnectAttempts)%nat
  ∧ queues s ⊆ declared
  ∧ (connected s = true → channel s = true ∧ queues s = declared).

(** *** Connection attempts interleaved with the other calls

    [connect()] waits at [amqp.connect], at [createChannel] and at each
    channel call of [setupQueues]; while it waits, other calls and events run
    on the same object.  [Flight] says where a [connect()] that has passed its
    guard stands. *)
Inductive Flight :=
| Idle                      (* no [connect()] is past its guard *)
| Dialing                   (* waiting for [amqp.connect] *)
| Opening                   (* waiting for [connection.createChannel] *)
| SettingUp (done : nat).   (* in [setupQueues], [done] queues registered *)

#[global] Instance Flight_eq_dec : EqDecision Flight.
Proof. solve_decision. Defined.

(** [this.connecting = true], past the guard. *)
Definition connectBegun (s : t) : t :=
  mk (connected s) true (channel s) (queues s) (reconnectAttempts s) (trace s).

(** [this.channel = await this.connection.createChannel()] *)
Definition channelCreated (s : t) : t :=
  mk (connected s) (connecting s) true (queues s) (reconnectAttempts s) (trace s).

(** [this.queues[queueName] = true], after the four channel calls for
    [queueName] have been answered. *)
Definition queueRegistered (queueName : string) (s : t) : t :=
  mk (connected s) (connecting s) (channel s) (queues s ∪ {[ queueName ]})
     (reconnectAttempts s) (trace s).

(** The end of the [try] block: [connected = true], [connecting = false],
    [reconnectAttempts = 0]. *)
Definition connectDone (s : t) : t :=
  mk true false (channel s) (queues s) 0 (trace s).

(** The [catch] block: [connecting = false], then [handleConnectionError()]. *)
Definition connectFailed (s : t) : t :=
  handleConnectionError
    (mk (connected s) false (channel s) (queues s) (reconnectAttempts s) (trace s)).

(** The states of the singleton with the flight of its connection attempt.
    A [connect()] advances one wait at a time, and any of its waits can end
    in the [catch] block (a rejected promise, or a [TypeError] on a channel
    that an event has cleared meanwhile); between two of its steps come the
    connection's ['error'] and ['close'] events and the other calls.  A call
    taken whole is the call with nothing in between; a call that had to wait
    for a connect in progress resumes as the same call made once that connect
    has ended, or throws on a cleared channel and changes nothing.  The
    reconnection timer is one more caller of [connect()]. *)
Inductive running : t → Flight → Prop :=
| run_new : running new Idle
| run_begun s :
    running s Idle → connected s = false → connecting s = false →
    running (connectBegun s) Dialing
| run_dialed s : running s Dialing → running s Opening
| run_channel s : running s Opening → running (channelCreated s) (SettingUp 0)
| run_queue s done queueName :
    running s (SettingUp done) →
    (fst <$> queueDefinitions) !! done = Some queueName →
    running (queueRegistered queueName s) (SettingUp (S done))
| run_done s :
    running s (SettingUp (length queueDefinitions)) → running (connectDone s) Idle
| run_failed s flight :
    running s flight → flight ≠ Idle → running (connectFailed s) Idle
| run_connection_error s flight :
    running s flight → running (handleConnectionError s) flight
| run_connect env s flight : running s flight → running (connect env s).1 flight
| run_enqueue env queue message s flight :
    running s flight → running (enqueue env queue message s).1 flight
| run_consume env queue options consumerTag s flight :
    running s flight → running (consume env queue options consumerTag s).1 flight
| run_remove env queue messageId s flight :
    running s flight → running (removeFromQueue env queue messageId s).1 flight
| run_cancel env refused consumerTag s flight :
    running s flight → running (cancelConsumer env refused consumerTag s).1 flight
| run_close refused s flight : running s flight → running (close refused s).1 flight
| run_message queue options msg outcome s flight :
    running s flight → running (onMessage queue options msg outcome s).1 flight
| run_retry_timer env queue msg retryOptions s flight :
    running s flight → running (onRetryTimer env queue msg retryOptions s) flight.

(** What holds of the singleton at every moment: [connecting] is set exactly
    while a connect is in flight, and then the service is not marked
    connected; at most [maxReconnectAttempts] attempts are counted; only
    declared queues are registered, the first [done] of them while setting
    up, and all of them whenever the service is marked connected; with no
    connect in flight a channel is held only while marked connected. *)
Definition steady (s : t) (flight : Flight) : Prop :=
  (flight = Idle → connecting s = false)
  ∧ (flight ≠ Idle → connecting s = true ∧ connected s = false)
  ∧ (reconnectAttempts s ≤ maxReconnectAttempts)%nat
  ∧ queues s ⊆ declared
  ∧ (∀ done, flight = SettingUp done →
       (done ≤ length queueDefinitions)%nat
       ∧ list_to_set (fst <$> take done queueDefinitions) ⊆ queues s)
  ∧ (connected s = true → queues s = declared)
  ∧ (flight = Idle → channel s = true → connected s = true).

(** A message whose handler throws on every delivery: the delays of its
    retries, in order, until the consumer rejects it to the dead-letter
    queue.  Each retry is the republish [onRetryTimer] makes, content kept and
    properties replaced by the retry options. *)
Fixpoint failingDelays (fuel : nat) (queue : string) (options : ConsumeOptions)
         (msg : Envelope) (error : HandlerError) : option (list Z) :=
  match fuel with
  | O => None
  | S fuel' =>
      match onHandlerError queue options msg error with
      | RetryScheduled delay retryOptions =>
          cons delay
            <$> failingDelays fuel' queue options
                  (mkEnvelope (content msg) retryOptions) error
      | DeadLettered => Some []
      | Acknowledged => None
      end
  end.

(** The retries left for a message: [maxRetries] minus its retry count. *)
Definition retriesLeft (options : ConsumeOptions) (msg : Envelope) : nat :=
  Z.to_nat (JS.or_num (maxRetries options) 3 - Z.of_N (retryCountOf msg)).

End QueueLifecycle.


(** ** creditService.js: renewals, purchases and plans *)

Module Subscription.
(** [DataTypes.ENUM('active', 'canceled', 'past_due', 'trialing')] *)
Inductive Status := active | canceled | past_due | trialing.

#[global] Instance Status_eq_dec : EqDecision Status.
Proof. solve_decision. Defined.

Record t := mk {
  userId : string;
  planId : string;
  status : Status
}.
End Subscription.

Module PaymentRecord.
Inductive Kind := subscription | one_time | refund.
Inductive Status := pending | completed | failed | refunded.

Record t := mk {
  userId : string;
  type : Kind;
  amount : Q;
  currency : string;
  status : Status;
  paymentMethod : option string;
  paymentId : option string;
  paddleTransactionId : option string;
  creditPackage : string;       (* metadata.creditPackage *)
  creditsAdded : Z              (* metadata.creditsAdded *)
}.
End PaymentRecord.

Module Billing.

(** The tables and columns the billing functions touch beside the ledger:
    subscriptions and payment records in insertion order, and the credit
    account's [planType], [lastRenewalDate] and [renewalDate] columns by
    user. *)
Record Store := mkStore {
  ledger : Db;
  subscriptions : list Subscription.t;
  paymentRecords : list PaymentRecord.t;
  planTypes : gmap string string;
  renewalDates : gmap string (Z * Z)
}.

Definition set_ledger (d : Db) (st : Store) : Store :=
  mkStore d (subscriptions st) (paymentRecords st) (planTypes st) (renewalDates st).

Inductive BillingError :=
| InvalidCreditPackage (packageId : string)    (* `Invalid credit package: ${packageId}` *)
| InvalidSubscriptionPlan (planId : string)    (* `Invalid subscription plan: ${planId}` *)
| NotNullViolation (column : string)           (* [undefined] written to an [allowNull: false] column *)
| LedgerError (e : Error).

Inductive Outcome (A : Type) :=
| Done (a : A)
| Raised (e : BillingError).
Arguments Done {A} a.
Arguments Raised {A} e.

Record PaymentDetails := mkPaymentDetails {
  method : option string;
  id : option string;
  details_paddleTransactionId : option string
}.

(** [creditPackages]: credits and price of each package. *)
Definition creditPackages : gmap string (Z * Q) :=
  {[ "small" := (5000, (999 # 100)%Q);
     "medium" := (15000, (2499 # 100)%Q);
     "large" := (50000, (6999 # 100)%Q);
     "enterprise" := (200000, (19999 # 100)%Q) ]}.

(** [subscriptionPlans]: monthly credits and plan type of each plan. *)
Definition subscriptionPlans : gmap string (Z * string) :=
  {[ "basic" := (5000, "basic");
     "pro" := (25000, "pro");
     "enterprise" := (100000, "enterprise") ]}.

(** Thirty days in milliseconds: [30 * 24 * 60 * 60 * 1000]. *)
Definition thirtyDays : Z := 30 * 24 * 60 * 60 * 1000.

(** [Subscription.findOne({ where: { userId, status: 'active' } })] *)
Definition findActiveSubscription (st : Store) (userId : string) : option Subscription.t :=
  find (λ sub, bool_decide (Subscription.userId sub = userId)
               && bool_decide (Subscription.status sub = Subscription.active))
       (subscriptions st).

Inductive RenewResult :=
| Renewed (creditsRenewed : Z) (nextRenewalDate : Z)
| NotRenewed (reason : string).

Definition renewMonthlyCredits (now : Z) (userId : string) (st : Store)
  : Store * Outcome RenewResult :=
  match CreditService.getCreditAccount userId (ledger st) with
  | Thrown e => (st, Raised (LedgerError e))
  | Returned creditAccount =>
      match findActiveSubscription st userId with
      | None => (st, Done (NotRenewed "no_active_subscription"))
      | Some _ =>
          let creditAccount' :=
            CreditAccount.set_creditsRemaining
              (CreditAccount.monthlyAllowance creditAccount) creditAccount in
          let renewalDate := now + thirtyDays in
          (mkStore
             (set_creditAccounts
                (<[userId := creditAccount']> (creditAccounts (ledger st))) (ledger st))
             (subscriptions st) (paymentRecords st) (planTypes st)
             (<[userId := (now, renewalDate)]> (renewalDates st)),
           Done (Renewed (CreditAccount.monthlyAllowance creditAccount) renewalDate))
      end
  end.

Record PurchaseResult := mkPurchaseResult {
  purchase_record : PaymentRecord.t;
  purchase_creditsAdded : Z
}.

Definition processCreditPurchase (userId packageId : string)
           (paymentDetails : PaymentDetails) (st : Store)
  : Store * Outcome PurchaseResult :=
  match JS.get creditPackages packageId with
  | JS.Absent => (st, Raised (InvalidCreditPackage packageId))
  | JS.Inherited =>
      (* [packageDetails] is a member of [Object.prototype]: its [price] and
         [credits] are [undefined], and [PaymentRecord.create] is given an
         [undefined] amount for a column declared [allowNull: false] *)
      (st, Raised (NotNullViolation "PaymentRecord.amount"))
  | JS.Own (credits, price) =>
      (* create payment record *)
      let paymentRecord :=
        PaymentRecord.mk userId PaymentRecord.one_time price "USD"
          PaymentRecord.completed (method paymentDetails) (id paymentDetails)
          (details_paddleTransactionId paymentDetails) packageId credits in
      let st1 :=
        mkStore (ledger st) (subscriptions st) (paymentRecords st ++ [paymentRecord])
                (planTypes st) (renewalDates st) in
      (* add credits to user account *)
      match CreditService.addCredits userId credits (ledger st1) with
      | (_, Thrown e) => (st1, Raised (LedgerError e))
      | (d', Returned _) => (set_ledger d' st1, Done (mkPurchaseResult paymentRecord credits))
      end
  end.

Record PlanResult := mkPlanResult {
  result_planType : string;
  result_monthlyCredits : Z
}.

Definition updateSubscriptionPlan (userId planId : string) (st : Store)
  : Store * Outcome PlanResult :=
  match JS.get subscriptionPlans planId with
  | JS.Absent => (st, Raised (InvalidSubscriptionPlan planId))
  | JS.Inherited =>
      (* [planDetails] is a member of [Object.prototype]: its [planType] and
         [monthlyCredits] are [undefined], and the account is saved with an
         [undefined] allowance for a column declared [allowNull: false] *)
      match CreditService.getCreditAccount userId (ledger st) with
      | Thrown e => (st, Raised (LedgerError e))
      | Returned _ => (st, Raised (NotNullViolation "CreditAccount.monthlyAllowance"))
      end
  | JS.Own (monthlyCredits, planType) =>
      match CreditService.getCreditAccount userId (ledger st) with
      | Thrown e => (st, Raised (LedgerError e))
      | Returned creditAccount =>
          let creditAccount' :=
            CreditAccount.mk (CreditAccount.creditsRemaining creditAccount)
              (CreditAccount.creditsUsed creditAccount) monthlyCredits in
          (mkStore
             (set_creditAccounts
                (<[userId := creditAccount']> (creditAccounts (ledger st))) (ledger st))
             (subscriptions st) (paymentRecords st)
             (<[userId := planType]> (planTypes st)) (renewalDates st),
           Done (mkPlanResult planType monthlyCredits))
      end
  end.

End Billing.

(** Scenario data for billing: the scenario user as an active basic
    subscriber. *)
Module BillingScenario.

Definition subscriber : Billing.Store :=
  Billing.mkStore Scenario.db0
    [ Subscription.mk "user-2" "pro" Subscription.active;
      Subscription.mk Scenario.alice "basic" Subscription.canceled;
      Subscription.mk Scenario.alice "basic" Subscription.active ]
    [] ∅ ∅.

Definition card : Billing.PaymentDetails :=
  Billing.mkPaymentDetails (Some "card") (Some "pay-1") None.

End BillingScenario.

(** ** contentController.js: publishContent *)
Module ContentPublishing.

Record PublishRequest := mkPublishRequest {
  params_id : string;               (* req.params.id *)
  user_id : string;                 (* req.user.id *)
  user_role : string;               (* req.user.role *)
  validation : list string;         (* validationResult(req).array() *)
  integrationId : option string
}.

(** The answer of [publishContent]: one of the shared responses, or
    [res.status(202).json({ message: 'Content publishing job started',
    publishingJobId, contentItemId })]. *)
Inductive PublishReply :=
| Replied (r : Response)
| PublishingStarted (publishingJobId contentItemId : string).

(** [contentItem.update({ status: 'published', publishedAt, metadata })] on
    the columns of [ContentItem.t]. *)
Definition update_published (md : gmap string string) (c : ContentItem.t) : ContentItem.t :=
  ContentItem.mk (ContentItem.userId c) (ContentItem.templateId c) (ContentItem.title c)
    (ContentItem.contentType c) ContentItem.published (ContentItem.scheduledAt c) md.

(** [nowIso] is [new Date().toISOString()], [publishingJobId] the uuid drawn
    by [uuidv4()]. *)
Definition publishContent (env : BrokerEnv) (nowIso publishingJobId : string)
           (req : PublishRequest) (w : World) : World * PublishReply :=
  match validation req with
  | _ :: _ => (w, Replied (Json 400 (ValidationErrors (validation req))))
  | [] =>
  let id := params_id req in
  let userId := user_id req in
  match contentItems (db w) !! id with
  | None => (w, Replied (Json 404 (ErrorBody "Content item not found")))
  | Some contentItem =>
  if negb (bool_decide (ContentItem.userId contentItem = userId))
     && negb (bool_decide (user_role req = "admin"))
  then (w, Replied (Json 403 (ErrorBody "Access denied")))
  else if negb (bool_decide (ContentItem.status contentItem = ContentItem.generated))
          && negb (bool_decide (ContentItem.status contentItem = ContentItem.draft))
  then (w, Replied (Json 400 (ErrorBody
          "Content must be in generated or draft status to publish")))
  else
  (* queue publishing job *)
  match QueueService.enqueue env "content-publishing"
          (PublishingJob publishingJobId id userId (integrationId req))
          (queueService w) with
  | (q', Thrown e) => (mkWorld (db w) q', Replied (Next e))
  | (q', Returned _) =>
      (* update content item status *)
      let metadata :=
        <["integrationId" := JS.default_to (integrationId req) "undefined"]>
          (<["publishedAt" := nowIso]>
             (<["publishedBy" := userId]>
                (<["publishingJobId" := publishingJobId]>
                   (ContentItem.metadata contentItem)))) in
      let d1 :=
        set_contentItems
          (<[id := update_published metadata contentItem]> (contentItems (db w)))
          (db w) in
      (mkWorld d1 q', PublishingStarted publishingJobId id)
  end end end.

End ContentPublishing.

(** Scenario data for publishing: a generated item of the scenario user. *)
Module PublishingScenario.

Definition article : ContentItem.t :=
  ContentItem.mk Scenario.alice None "Launch notes" "blog" ContentItem.generated None ∅.

Definition world : World :=
  mkWorld (set_contentItems {[ "item-1" := article ]} Scenario.db0) QueueService.new.

Definition request : ContentPublishing.PublishRequest :=
  ContentPublishing.mkPublishRequest "item-1" Scenario.alice "user" [] (Some "wp-1").

End PublishingScenario.

(** ** Proof automation *)

(** Looking a key up in an object literal: try each own key in turn. *)
Ltac lookup_step :=
  let Hk := fresh "Hk" in
  case_decide as Hk;
  [ subst; reflexivity
  | apply String.eqb_neq in Hk; rewrite String.eqb_sym in Hk; rewrite ?Hk ].

Ltac lookup_literal :=
  repeat (rewrite lookup_insert; lookup_step);
  rewrite lookup_singleton; lookup_step; reflexivity.

(** The two ways a submission ends: turned down with nothing written, or
    reserved and handed to [enqueue]. *)
Ltac turned_down := left; split; [reflexivity | cbn; tauto].

Ltac reserved_with a :=
  lazymatch goal with
  | |- context [QueueService.enqueue ?env "content-generation"
                  (GenerationJob ?gid ?uid ?item ?pd ?prov) ?q] =>
      lazymatch goal with
      | |- context [set_contentGenerations (<[_ := ?g]> _) _] =>
          exists g, (GenerationJob gid uid item pd prov), item;
          destruct (QueueService.enqueue env "content-generation"
                      (GenerationJob gid uid item pd prov) q) as [? [?|?]];
          cbn; repeat split; (reflexivity || assumption || lia)
      end
  end.

Ltac reserved a := right; exists a; reserved_with a.

(** Closes a frame goal when the database is the one before the call. *)
Ltac untouched :=
  solve
    [ cbn [fst snd db];
      repeat match goal with |- _ ∧ _ => split end;
      try reflexivity;
      try (intros other _; reflexivity);
      try (intros a' Ha'; first
             [ congruence
             | exists a'; split; [congruence|]; split; [lia|]; split; reflexivity ]) ].

(** Reads the fields of a service state written out with [mk]. *)
Ltac fields :=
  cbn [QueueService.connected QueueService.connecting QueueService.channel
       QueueService.queues QueueService.reconnectAttempts QueueService.trace
       QueueLifecycle.connectBegun QueueLifecycle.channelCreated
       QueueLifecycle.queueRegistered QueueLifecycle.connectDone
       QueueService.new].

(** * Properties *)

(** ** The cost estimator *)
Section Estimator.

Import CreditService.

(** The repository's unit tests of [estimateGenerationCost]. *)
Example test_cost_word_count :
  estimateGenerationCost (mkPromptData (Some 1000) None None) "blog" = 1000.
Proof. reflexivity. Qed.

Example test_cost_type_multiplier :
  estimateGenerationCost (mkPromptData (Some 1000) None None) "social"
  < estimateGenerationCost (mkPromptData (Some 1000) None None) "blog".
Proof. vm_compute. reflexivity. Qed.

Example test_cost_seo :
  1000 < estimateGenerationCost (mkPromptData (Some 1000) None (Some true)) "blog".
Proof. vm_compute. reflexivity. Qed.

Example test_cost_minimum :
  100 ≤ estimateGenerationCost (mkPromptData (Some 10) None None) "social".
Proof. vm_compute. discriminate. Qed.

Lemma typeMultipliers_lookup (contentType : string) :
  JS.or_rat (typeMultipliers !! contentType) 1%Q = Design.type_multiplier contentType.
Proof. unfold typeMultipliers, Design.type_multiplier. lookup_literal. Qed.

Lemma modelMultipliers_lookup (m : option string) :
  JS.or_rat (lookup_model m) (JS.default_to (modelMultipliers !! "default") 1%Q)
  = Design.model_multiplier m.
Proof.
  replace (JS.default_to (modelMultipliers !! "default") 1%Q) with 1%Q by reflexivity.
  destruct m as [k|]; [|reflexivity].
  unfold lookup_model, modelMultipliers, Design.model_multiplier.
  rewrite lookup_insert; case_decide as Hk; [subst; reflexivity|].
  apply String.eqb_neq in Hk; rewrite String.eqb_sym in Hk; rewrite Hk.
  rewrite lookup_insert; case_decide; [reflexivity|].
  rewrite lookup_singleton; case_decide; reflexivity.
Qed.

Lemma requested_words_or (wc : option Z) :
  JS.or_num wc 1000 = Design.requested_words wc.
Proof. destruct wc as [[| |]|]; reflexivity. Qed.

Lemma seo_multiplier_truthy (seo : option bool) :
  (if JS.truthy seo then (12 # 10)%Q else 1%Q) = Design.seo_multiplier seo.
Proof. destruct seo as [[|]|]; reflexivity. Qed.

End Estimator.

(** ** Exact and double arithmetic agree *)
Section Binary64Agrees.

Import Binary64.

Lemma get_not_inherited {A} (table : gmap string A) (key : string) :
  JS.inherited key = false →
  JS.get table key = match table !! key with
                     | Some v => JS.Own v
                     | None => JS.Absent
                     end.
Proof. intros Hk. unfold JS.get. rewrite Hk. reflexivity. Qed.

Lemma get_inherited {A} (table : gmap string A) (key : string) :
  JS.inherited key = true → table !! key = None → JS.get table key = JS.Inherited.
Proof. intros Hk Hn. unfold JS.get. rewrite Hn, Hk. reflexivity. Qed.

Lemma typeMultipliers64_lookup (contentType : string) :
  JS.inherited contentType = false →
  or_float (JS.get typeMultipliers contentType) 1%float
  = (if String.eqb contentType "blog" then 1%float
     else if String.eqb contentType "product" then 0.8%float
     else if String.eqb contentType "social" then 0.5%float
     else if String.eqb contentType "email" then 0.7%float
     else if String.eqb contentType "custom" then 1.2%float
     else 1%float).
Proof.
  intros Hk. rewrite (get_not_inherited _ _ Hk). unfold typeMultipliers. lookup_literal.
Qed.

Lemma modelMultipliers64_lookup (m : option string) :
  (∀ k, m = Some k → JS.inherited k = false) →
  or_float (lookup_model m) (JS.default_to (modelMultipliers !! "default") 1%float)
  = match m with
    | Some k => if String.eqb k "gpt-4" then 1.5%float else 1%float
    | None => 1%float
    end.
Proof.
  intros Hm.
  replace (JS.default_to (modelMultipliers !! "default") 1%float) with 1%float
    by reflexivity.
  destruct m as [k|]; [|reflexivity].
  unfold lookup_model. rewrite (get_not_inherited _ _ (Hm k eq_refl)).
  unfold modelMultipliers.
  rewrite lookup_insert; case_decide as Hk; [subst; reflexivity|].
  apply String.eqb_neq in Hk; rewrite String.eqb_sym in Hk; rewrite Hk.
  rewrite lookup_insert; case_decide; [reflexivity|].
  rewrite lookup_singleton; case_decide; reflexivity.
Qed.

(** The tables have no own key that [Object.prototype] has as well. *)
Lemma inherited_not_own (key : string) :
  JS.inherited key = true →
  typeMultipliers !! key = None ∧ modelMultipliers !! key = None.
Proof.
  unfold JS.inherited, JS.prototypeMembers. cbn [existsb]. intros Hk.
  repeat (apply orb_prop in Hk as [Hk|Hk];
          [apply String.eqb_eq in Hk; subst; split; reflexivity|]).
  discriminate Hk.
Qed.

(** NaN spreads through a product. *)
Lemma nan_mul_l (x y : float) :
  Prim2SF x = S754_nan → Prim2SF (x * y)%float = S754_nan.
Proof. intros Hx. rewrite mul_spec, Hx. reflexivity. Qed.

Lemma nan_mul_r (x y : float) :
  Prim2SF y = S754_nan → Prim2SF (x * y)%float = S754_nan.
Proof. intros Hy. rewrite mul_spec, Hy. destruct (Prim2SF x); reflexivity. Qed.

Lemma ceil_nan (x : float) : Prim2SF x = S754_nan → ceil x = None.
Proof. intros Hx. unfold ceil. rewrite Hx. reflexivity. Qed.

(** The check, run on every word count from 1 to 5000. *)
Lemma binary64_checked : forallb agree (word_counts 5000) = true.
Proof. vm_compute. reflexivity. Qed.

Lemma agree_in_range (w : Z) (t m s : float * Q) :
  1 ≤ w ≤ 5000 → In t type_values → In m model_values → In s seo_values →
  agree_at w t m s = true.
Proof.
  intros Hw Ht Hm Hs.
  pose proof binary64_checked as Hall. rewrite forallb_forall in Hall.
  assert (In w (word_counts 5000)) as Hin.
  { unfold word_counts. apply in_map_iff. exists (Z.to_nat w).
    split; [lia | apply in_seq; lia]. }
  specialize (Hall w Hin). unfold agree in Hall.
  rewrite forallb_forall in Hall. specialize (Hall t Ht).
  rewrite forallb_forall in Hall. specialize (Hall m Hm).
  rewrite forallb_forall in Hall. exact (Hall s Hs).
Qed.

Lemma agree_at_cost (w : Z) (t m s : float * Q) :
  agree_at w t m s = true →
  match ceil (of_int w * t.1 * m.1 * s.1)%float with
  | Some c => Some (Z.max c 100)
  | None => None
  end = Some (Z.max (Qceiling (inject_Z w * t.2 * m.2 * s.2)%Q) 100).
Proof.
  unfold agree_at. destruct (ceil _) as [c|]; [|discriminate].
  intros Hc. apply Z.eqb_eq in Hc. rewrite Hc. reflexivity.
Qed.

(** On word counts from 1 to 5000 and names that [Object.prototype] does
    not have, the estimate computed in IEEE double arithmetic, as the
    JavaScript runs it, is the estimate of the exact model. *)
Lemma binary64_estimate_agrees (promptData : PromptData) (contentType : string) :
  JS.inherited contentType = false →
  (∀ k, model promptData = Some k → JS.inherited k = false) →
  1 ≤ JS.or_num (wordCount promptData) 1000 ≤ 5000 →
  Binary64.estimateGenerationCost promptData contentType
  = Some (CreditService.estimateGenerationCost promptData contentType).
Proof.
  intros Hct Hmodel Hw.
  unfold Binary64.estimateGenerationCost, CreditService.estimateGenerationCost.
  rewrite (typeMultipliers64_lookup _ Hct), (modelMultipliers64_lookup _ Hmodel).
  rewrite typeMultipliers_lookup, modelMultipliers_lookup.
  unfold Design.type_multiplier, Design.model_multiplier.
  set (w := JS.or_num (wordCount promptData) 1000) in *.
  assert (∀ t m s, In t type_values → In m model_values → In s seo_values →
            match ceil (of_int w * t.1 * m.1 * s.1)%float with
            | Some c => Some (Z.max c 100)
            | None => None
            end = Some (Z.max (Qceiling (inject_Z w * t.2 * m.2 * s.2)%Q) 100)) as Hcase.
  { intros t m s Ht Hm Hs. apply agree_at_cost, agree_in_range; assumption. }
  destruct (model promptData) as [k|];
    [destruct (String.eqb k "gpt-4")|];
    destruct (JS.truthy (seoOptimize promptData));
    repeat (destruct (String.eqb contentType _));
    match goal with
    | |- match ceil (_ * ?t * ?m * ?s)%float with _ => _ end
         = Some (Z.max (Qceiling (_ * ?tq * ?mq * ?sq)%Q) 100) =>
        apply (Hcase (t, tq) (m, mq) (s, sq)); cbn; tauto
    end.
Qed.

(** The exact model is the estimate as the design words it. *)
Lemma exact_estimate_is_design (promptData : PromptData) (contentType : string) :
  CreditService.estimateGenerationCost promptData contentType
  = Design.estimate promptData contentType.
Proof.
  unfold CreditService.estimateGenerationCost, Design.estimate.
  rewrite typeMultipliers_lookup, modelMultipliers_lookup,
    requested_words_or, seo_multiplier_truthy.
  apply Z.max_comm.
Qed.

(** A content type or a model that names a member of [Object.prototype]
    finds that member in the table: the factor is not a number and the
    estimate is NaN, whatever the rest of the request. *)
Lemma estimate_inherited_name_is_nan (promptData : PromptData) (contentType : string) :
  JS.inherited contentType = true
  ∨ (∃ k, model promptData = Some k ∧ JS.inherited k = true) →
  Binary64.estimateGenerationCost promptData contentType = None.
Proof.
  intros Hk. unfold Binary64.estimateGenerationCost.
  match goal with
  | |- match ceil ?x with _ => _ end = None =>
      assert (ceil x = None) as Hnan; [|rewrite Hnan; reflexivity]
  end.
  apply ceil_nan. destruct Hk as [Hk|(k & Hm & Hk)].
  - destruct (inherited_not_own _ Hk) as [Hown _].
    rewrite (get_inherited _ _ Hk Hown). cbn [or_float].
    apply nan_mul_l, nan_mul_l, nan_mul_r. reflexivity.
  - destruct (inherited_not_own _ Hk) as [_ Hown].
    rewrite Hm. unfold lookup_model. rewrite (get_inherited _ _ Hk Hown). cbn [or_float].
    apply nan_mul_l, nan_mul_r. reflexivity.
Qed.

(** On names that [Object.prototype] does not have, the estimator is the
    design's estimate taken in double arithmetic, on every word count. *)
Lemma binary64_estimate_is_design64 (promptData : PromptData) (contentType : string) :
  JS.inherited contentType = false →
  (∀ k, model promptData = Some k → JS.inherited k = false) →
  Binary64.estimateGenerationCost promptData contentType
  = Design.estimate64 promptData contentType.
Proof.
  intros Hct Hmodel.
  unfold Binary64.estimateGenerationCost, Design.estimate64.
  rewrite (typeMultipliers64_lookup _ Hct), (modelMultipliers64_lookup _ Hmodel).
  rewrite requested_words_or.
  fold (Design.type_multiplier64 contentType).
  fold (Design.model_multiplier64 (model promptData)).
  replace (if JS.truthy (seoOptimize promptData) then 1.2%float else 1%float)
    with (Design.seo_multiplier64 (seoOptimize promptData))
    by (destruct (seoOptimize promptData) as [[|]|]; reflexivity).
  destruct (ceil _) as [c|]; [|reflexivity].
  rewrite Z.max_comm. reflexivity.
Qed.

(** C9, as the code has it.  For every prompt data with an integer word
    count that a double holds and every content type and model that name no
    member of [Object.prototype], the estimator returns the design's
    estimate taken in double arithmetic: the ceiling of the requested word
    count (1000 when missing or zero) times the content-type multiplier (1
    for an unknown type), the model multiplier (1 for an unknown or missing
    model) and the SEO multiplier (1.2 when [seoOptimize] is set, 1
    otherwise), the product rounded after each multiplication, raised to the
    minimum of 100 credits; a number it returns is at least 100.  For word
    counts from 1 to 5000 the rounded product has the ceiling of the exact
    one: the estimator returns the integer the design states, which is the
    value of the exact model the controllers are stated on. *)
Theorem estimate_cost_spec (promptData : PromptData) (contentType : string) :
  JS.inherited contentType = false →
  (∀ k, model promptData = Some k → JS.inherited k = false) →
  - 2 ^ 53 < JS.or_num (wordCount promptData) 1000 < 2 ^ 53 →
  Binary64.estimateGenerationCost promptData contentType
  = Design.estimate64 promptData contentType
  ∧ (∀ cost, Binary64.estimateGenerationCost promptData contentType = Some cost →
             100 ≤ cost)
  ∧ (1 ≤ JS.or_num (wordCount promptData) 1000 ≤ 5000 →
     Binary64.estimateGenerationCost promptData contentType
     = Some (Design.estimate promptData contentType)
     ∧ 100 ≤ Design.estimate promptData contentType
     ∧ CreditService.estimateGenerationCost promptData contentType
       = Design.estimate promptData contentType).
Proof.
  intros Hct Hmodel _.
  split; [exact (binary64_estimate_is_design64 _ _ Hct Hmodel)|]. split.
  - unfold Binary64.estimateGenerationCost. intros cost.
    destruct (ceil _) as [c|]; [|discriminate].
    intros Hc. injection Hc as <-. apply Z.le_max_r.
  - intros Hw.
    rewrite (binary64_estimate_agrees _ _ Hct Hmodel Hw), exact_estimate_is_design.
    split; [reflexivity|]. split; [|reflexivity].
    unfold Design.estimate. apply Z.le_max_l.
Qed.

End Binary64Agrees.

(** C9 witness: 1000 words of custom content on gpt-4 with SEO, in double
    arithmetic. *)
Lemma estimate_cost_witness :
  Binary64.estimateGenerationCost
    (mkPromptData (Some 1000) (Some "gpt-4") (Some true)) "custom"
  = Some 2160.
Proof.
  refine (proj1 (proj2 (proj2 (estimate_cost_spec
                   (mkPromptData (Some 1000) (Some "gpt-4") (Some true)) "custom"
                   eq_refl _ _)) _)).
  - intros k Hk. injection Hk as <-. reflexivity.
  - cbn. lia.
  - cbn. lia.
Defined.

(** C9 counterexample.  For 194257585656141 words of custom content with
    SEO the product rounded in double arithmetic has the ceiling
    279730923344843, one below the ceiling of the exact product; and for the
    content type [constructor], which finds [Object.prototype.constructor] in
    the table, the estimate of 300 words is NaN where the claim has 300. *)
Lemma estimate_cost_counterexample :
  Binary64.estimateGenerationCost
    (mkPromptData (Some 194257585656141) None (Some true)) "custom"
  = Some 279730923344843
  ∧ Design.estimate (mkPromptData (Some 194257585656141) None (Some true)) "custom"
    = 279730923344844
  ∧ Binary64.estimateGenerationCost (mkPromptData (Some 300) None None) "constructor"
    = None
  ∧ Design.estimate (mkPromptData (Some 300) None None) "constructor" = 300.
Proof. repeat split; vm_compute; reflexivity. Qed.

(** ** The consumer's retry policy *)
Section RetryPolicy.

Import QueueService.

Variables (queue : string) (options : ConsumeOptions).

Lemma onHandlerError_retry (msg : Envelope) (error : HandlerError) :
  Z.of_N (retryCountOf msg) < JS.or_num (maxRetries options) 3 →
  onHandlerError queue options msg error
  = RetryScheduled (JS.or_num (retryDelay options) 5000 * 2 ^ Z.of_N (retryCountOf msg))
      (mkProperties true (messageId (properties msg))
         (Some (mkHeaders (Some (retryCountOf msg + 1)%N) (Some queue)))).
Proof.
  intros Hlt. unfold onHandlerError, backoff.
  destruct (Z.ltb_spec (Z.of_N (retryCountOf msg)) (JS.or_num (maxRetries options) 3));
    [reflexivity | lia].
Qed.

Lemma onHandlerError_exhausted (msg : Envelope) (error : HandlerError) :
  JS.or_num (maxRetries options) 3 ≤ Z.of_N (retryCountOf msg) →
  onHandlerError queue options msg error = DeadLettered.
Proof.
  intros Hge. unfold onHandlerError.
  destruct (Z.ltb_spec (Z.of_N (retryCountOf msg)) (JS.or_num (maxRetries options) 3));
    [lia | reflexivity].
Qed.

Lemma onHandlerError_dead_iff (msg : Envelope) (error : HandlerError) :
  onHandlerError queue options msg error = DeadLettered
  ↔ JS.or_num (maxRetries options) 3 ≤ Z.of_N (retryCountOf msg).
Proof.
  split; [|apply onHandlerError_exhausted].
  intros Hd. destruct (Z.lt_ge_cases (Z.of_N (retryCountOf msg))
              (JS.or_num (maxRetries options) 3)) as [Hlt|Hge];
    [|exact Hge].
  rewrite (onHandlerError_retry msg error Hlt) in Hd. discriminate.
Qed.

Lemma backoff_increasing (r1 r2 : N) :
  0 < JS.or_num (retryDelay options) 5000 → (r1 < r2)%N →
  backoff options r1 < backoff options r2.
Proof.
  intros Hb Hr. unfold backoff.
  apply Z.mul_lt_mono_pos_l; [exact Hb|].
  apply Z.pow_lt_mono_r; lia.
Qed.

(** The republished message carries the retry count plus one, so the
    count read on the next delivery is one higher. *)
Lemma retry_increments_count (msg : Envelope) (error : HandlerError)
      (delay : Z) (retryOptions : Properties) :
  onHandlerError queue options msg error = RetryScheduled delay retryOptions →
  retryCountOf (mkEnvelope (content msg) retryOptions) = (retryCountOf msg + 1)%N.
Proof.
  unfold onHandlerError.
  destruct (Z.of_N (retryCountOf msg) <? JS.or_num (maxRetries options) 3);
    [|discriminate].
  intros [= _ <-]. reflexivity.
Qed.

(** C4, as the code has it.  The consumer does not classify errors: a
    failed delivery whose error is permanent gets the same decision as any
    other error on that message, and it is dead-lettered exactly when the
    message's retry count has reached [maxRetries] (3 unless configured);
    below that it is retried like a transient one. *)
Theorem permanent_error_follows_retry_count (msg : Envelope) (error : HandlerError) :
  handler_kind error = permanent →
  (∀ other : HandlerError,
      onHandlerError queue options msg error = onHandlerError queue options msg other)
  ∧ (onHandlerError queue options msg error = DeadLettered
     ↔ JS.or_num (maxRetries options) 3 ≤ Z.of_N (retryCountOf msg)).
Proof.
  intros _. split; [reflexivity | apply onHandlerError_dead_iff].
Qed.

(** C5, as the code has it.  For a failure of any kind on delivery attempt
    [a] (the message's retry count plus one): while [a] is at most
    [maxRetries] (3 unless configured) the decision is a retry after
    [retryDelay * 2^(a-1)] milliseconds (base 5000 unless configured), with
    no cap; from attempt [maxRetries + 1] on the decision is dead-letter;
    and for a positive base the delays strictly increase with the attempt. *)
Theorem retry_policy_as_coded (msg : Envelope) (error : HandlerError) :
  (Design.attempt_of msg ≤ JS.or_num (maxRetries options) 3 →
   Design.decision_of (onHandlerError queue options msg error)
   = Some (Design.Retry (JS.or_num (retryDelay options) 5000
                         * 2 ^ (Design.attempt_of msg - 1))))
  ∧ (JS.or_num (maxRetries options) 3 < Design.attempt_of msg →
     Design.decision_of (onHandlerError queue options msg error)
     = Some Design.DeadLetter)
  ∧ (∀ later : Envelope,
        0 < JS.or_num (retryDelay options) 5000 →
        Design.attempt_of msg < Design.attempt_of later →
        backoff options (retryCountOf msg) < backoff options (retryCountOf later)).
Proof.
  unfold Design.attempt_of. repeat split.
  - intros Ha. rewrite onHandlerError_retry by lia.
    cbn. do 4 f_equal. lia.
  - intros Ha. rewrite onHandlerError_exhausted by lia. reflexivity.
  - intros later Hb Hlt. apply backoff_increasing; [exact Hb | lia].
Qed.

End RetryPolicy.

(** C4 witness: a permanent error on a message whose retry count is 3. *)
Lemma permanent_error_witness :
  handler_kind Scenario.invalid_prompt = permanent
  ∧ (QueueService.onHandlerError "content-generation" Scenario.defaults
       (Scenario.redelivery 3) Scenario.invalid_prompt = DeadLettered
     ↔ JS.or_num (maxRetries Scenario.defaults) 3
       ≤ Z.of_N (QueueService.retryCountOf (Scenario.redelivery 3))).
Proof.
  split; [reflexivity|].
  exact (proj2 (permanent_error_follows_retry_count "content-generation"
                  Scenario.defaults (Scenario.redelivery 3) Scenario.invalid_prompt
                  eq_refl)).
Defined.

(** C4 counterexample: on its first delivery, with the default options, a
    message whose handler throws a permanent error (an invalid prompt) is
    scheduled for a retry after 5000 ms, where the design's policy says
    dead-letter. *)
Lemma permanent_error_is_retried :
  handler_kind Scenario.invalid_prompt = permanent
  ∧ Design.decision_of
      (QueueService.onHandlerError "content-generation" Scenario.defaults
         Scenario.first_delivery Scenario.invalid_prompt)
    = Some (Design.Retry 5000)
  ∧ Design.decide 3 5000 30000 (Design.attempt_of Scenario.first_delivery)
      (handler_kind Scenario.invalid_prompt)
    = Design.DeadLetter
  ∧ Design.Retry 5000 ≠ Design.DeadLetter.
Proof. repeat split; discriminate. Qed.

(** C5 witness: the default policy on the second and on the fifth attempt. *)
Lemma retry_policy_witness :
  Design.decision_of
    (QueueService.onHandlerError "content-generation" Scenario.defaults
       (Scenario.redelivery 1) Scenario.invalid_prompt)
  = Some (Design.Retry (5000 * 2 ^ (2 - 1)))
  ∧ Design.decision_of
      (QueueService.onHandlerError "content-generation" Scenario.defaults
         (Scenario.redelivery 4) Scenario.invalid_prompt)
    = Some Design.DeadLetter.
Proof.
  split.
  - apply (proj1 (retry_policy_as_coded "content-generation" Scenario.defaults
                    (Scenario.redelivery 1) Scenario.invalid_prompt)).
    vm_compute. discriminate.
  - apply (proj1 (proj2 (retry_policy_as_coded "content-generation" Scenario.defaults
                           (Scenario.redelivery 4) Scenario.invalid_prompt))).
    vm_compute. reflexivity.
Defined.

(** C5 counterexample.  With the default options the third attempt (retry
    count 2) is retried after 20000 ms where the design dead-letters at
    attempt [maxAttempts = 3]; reading the retry count itself as the attempt,
    attempt 1 waits 10000 ms, not [5000 * 2^0]; and with a base of 20000 ms
    the second attempt waits 40000 ms, above the design's 30 s cap. *)
Lemma third_attempt_is_retried :
  (Design.attempt_of (Scenario.redelivery 2) = 3
   ∧ Design.decision_of
       (QueueService.onHandlerError "content-generation" Scenario.defaults
          (Scenario.redelivery 2) (mkHandlerError "provider timeout" transient))
     = Some (Design.Retry 20000)
   ∧ Design.decide 3 5000 30000 3 transient = Design.DeadLetter)
  ∧ (QueueService.retryCountOf (Scenario.redelivery 1) = 1%N
     ∧ Design.decision_of
         (QueueService.onHandlerError "content-generation" Scenario.defaults
            (Scenario.redelivery 1) (mkHandlerError "provider timeout" transient))
       = Some (Design.Retry 10000)
     ∧ Design.decide 3 5000 30000 1 transient = Design.Retry 5000)
  ∧ (Design.attempt_of (Scenario.redelivery 1) = 2
     ∧ Design.decision_of
         (QueueService.onHandlerError "content-generation"
            (mkConsumeOptions None None (Some 20000))
            (Scenario.redelivery 1) (mkHandlerError "provider timeout" transient))
       = Some (Design.Retry 40000)
     ∧ Design.decide 3 20000 30000 2 transient = Design.Retry 30000).
Proof. repeat split. Qed.

(** ** Queue names *)
Section QueueNames.

Import QueueService.

Lemma declared_names (queue : string) :
  queue ∈ declared
  ↔ queue = "content-generation" ∨ queue = "content-publishing" ∨ queue = "notification".
Proof.
  unfold declared, queueDefinitions. rewrite elem_of_list_to_set.
  rewrite !fmap_cons, !elem_of_cons. cbn.
  rewrite elem_of_nil. tauto.
Qed.

Lemma names_of_prefix (n : nat) (defs : list (string * QueueOptions)) :
  list_to_set (C := gset string) (fst <$> take n defs) ⊆ list_to_set (fst <$> defs).
Proof.
  intros x. rewrite !elem_of_list_to_set, !list_elem_of_fmap.
  intros [y [-> Hy]]. exists y. split; [reflexivity|].
  apply elem_of_take in Hy as [i [Hi _]]. eapply list_elem_of_lookup_2, Hi.
Qed.

Lemma setupQueues_declared (n : nat) (registered : gset string) :
  registered ⊆ declared →
  registered ∪ list_to_set (fst <$> take n queueDefinitions) ⊆ declared.
Proof. intros Hs. apply union_least; [exact Hs | apply names_of_prefix]. Qed.

Lemma connect_declared (env : BrokerEnv) (s : t) :
  queues s ⊆ declared → queues (connect env s).1 ⊆ declared.
Proof.
  intros Hs. unfold connect.
  destruct (connected s || connecting s); [exact Hs|].
  destruct (connectOutcome env) as [| |n|]; try exact Hs.
  - destruct (n <? length queueDefinitions)%nat.
    + exact (setupQueues_declared n _ Hs).
    + exact (setupQueues_declared (length queueDefinitions) _ Hs).
  - exact (setupQueues_declared (length queueDefinitions) _ Hs).
Qed.

Lemma ensureConnection_declared (env : BrokerEnv) (s : t) :
  queues s ⊆ declared → queues (ensureConnection env s).1 ⊆ declared.
Proof.
  intros Hs. unfold ensureConnection.
  destruct (connected s); [exact Hs | apply connect_declared, Hs].
Qed.

Lemma connect_trace (env : BrokerEnv) (s : t) :
  trace (connect env s).1 = trace s.
Proof.
  unfold connect.
  destruct (connected s || connecting s); [reflexivity|].
  destruct (connectOutcome env) as [| |n|]; try reflexivity.
  destruct (n <? length queueDefinitions)%nat; reflexivity.
Qed.

Lemma ensureConnection_trace (env : BrokerEnv) (s : t) :
  trace (ensureConnection env s).1 = trace s.
Proof.
  unfold ensureConnection.
  destruct (connected s); [reflexivity | apply connect_trace].
Qed.

Lemma enqueue_queues (env : BrokerEnv) (queue : string) (message : Message) (s : t) :
  queues (enqueue env queue message s).1 = queues (ensureConnection env s).1.
Proof.
  unfold enqueue. destruct (ensureConnection env s) as [s1 [u|e]]; [|reflexivity].
  cbn. repeat case_match; reflexivity.
Qed.

Lemma removeFromQueue_queues (env : BrokerEnv) (queue messageId : string) (s : t) :
  queues (removeFromQueue env queue messageId s).1 = queues (ensureConnection env s).1.
Proof.
  unfold removeFromQueue. destruct (ensureConnection env s) as [s1 [u|e]]; [|reflexivity].
  cbn. repeat case_match; reflexivity.
Qed.

Lemma consume_queues (env : BrokerEnv) (queue : string) (options : ConsumeOptions)
      (consumerTag : string) (s : t) :
  queues (consume env queue options consumerTag s).1 = queues (ensureConnection env s).1.
Proof.
  unfold consume. destruct (ensureConnection env s) as [s1 [u|e]]; [|reflexivity].
  cbn. repeat case_match; reflexivity.
Qed.

Lemma cancelConsumer_queues (env : BrokerEnv) (refused : option Error)
      (consumerTag : string) (s : t) :
  queues (cancelConsumer env refused consumerTag s).1 = queues (ensureConnection env s).1.
Proof.
  unfold cancelConsumer. destruct (ensureConnection env s) as [s1 [u|e]]; [|reflexivity].
  cbn. repeat case_match; reflexivity.
Qed.

(** In every state the singleton can reach, only declared names are
    registered in [this.queues]. *)
Lemma reachable_queues_declared (s : t) : reachable s → queues s ⊆ declared.
Proof.
  induction 1 as [|env s _ IH|s _ IH|env q m s _ IH|env q o tag s _ IH
                  |env q m s _ IH|env r tag s _ IH|r s _ IH
                  |q o m out s _ IH|env q m ro s _ IH].
  - cbn. set_solver.
  - apply connect_declared, IH.
  - exact IH.
  - rewrite enqueue_queues. apply ensureConnection_declared, IH.
  - rewrite consume_queues. apply ensureConnection_declared, IH.
  - rewrite removeFromQueue_queues. apply ensureConnection_declared, IH.
  - rewrite cancelConsumer_queues. apply ensureConnection_declared, IH.
  - destruct r; exact IH.
  - unfold onMessage. repeat case_match; exact IH.
  - unfold onRetryTimer. repeat case_match; exact IH.
Qed.

(** The registry test on a name that [Object.prototype] does not have. *)
Lemma registered_own (registry : gset string) (queue : string) :
  JS.inherited queue = false →
  JS.registered registry queue = bool_decide (queue ∈ registry).
Proof. intros Hq. unfold JS.registered. rewrite Hq. apply orb_false_r. Qed.

Lemma declared_not_inherited (queue : string) :
  queue ∈ declared → JS.inherited queue = false.
Proof. rewrite declared_names. intros [->|[->| ->]]; reflexivity. Qed.

(** A name that is neither declared nor inherited from [Object.prototype]
    never gets past [enqueue]'s check. *)
Lemma enqueue_undeclared (env : BrokerEnv) (queue : string) (message : Message) (s : t) :
  queues s ⊆ declared → queue ∉ declared → JS.inherited queue = false →
  trace (enqueue env queue message s).1 = trace s
  ∧ (enqueue env queue message s).2
    = match (ensureConnection env s).2 with
      | Returned _ => Thrown (QueueNotDefined queue)
      | Thrown e => Thrown e
      end.
Proof.
  intros Hs Hq Hi.
  pose proof (ensureConnection_declared env s Hs) as Hs1.
  pose proof (ensureConnection_trace env s) as Ht.
  unfold enqueue. destruct (ensureConnection env s) as [s1 [u|e]]; cbn in *.
  - rewrite (registered_own _ _ Hi), bool_decide_eq_false_2 by set_solver.
    cbn. split; [exact Ht | reflexivity].
  - split; [exact Ht | reflexivity].
Qed.

End QueueNames.

(** ** Queueing on a name without a definition *)
Section UndeclaredQueues.

Import QueueService.

Lemma enqueue_undeclared_throws (env : BrokerEnv) (queue : string)
      (message : Message) (s : t) :
  queues s ⊆ declared → queue ∉ declared → JS.inherited queue = false →
  ∃ e, (enqueue env queue message s).2 = Thrown e.
Proof.
  intros Hs Hq Hi.
  destruct (enqueue_undeclared env queue message s Hs Hq Hi) as [_ Hr].
  rewrite Hr. destruct (ensureConnection env s).2 as [u|e]; eauto.
Qed.

Lemma scheduling_undeclared : "content-scheduling" ∉ declared.
Proof. rewrite declared_names. intros [H|[H|H]]; discriminate H. Qed.

Lemma scheduling_not_inherited : JS.inherited "content-scheduling" = false.
Proof. reflexivity. Qed.

Lemma scheduleContent_never_queues (env : BrokerEnv) (now : Z) (jobId : string)
      (req : ContentController.ScheduleRequest) (w : World) :
  queues (queueService w) ⊆ declared →
  (∀ body, (ContentController.scheduleContent env now jobId req w).2 ≠ Json 200 body)
  ∧ trace (queueService (ContentController.scheduleContent env now jobId req w).1)
    = trace (queueService w).
Proof.
  intros Hs. unfold ContentController.scheduleContent.
  destruct (ContentController.validation req); [|split; [discriminate | reflexivity]].
  destruct (contentItems (db w) !! ContentController.params_id req) as [item|];
    [|split; [discriminate | reflexivity]].
  destruct (_ && _); [split; [discriminate | reflexivity]|].
  destruct (_ && _); [split; [discriminate | reflexivity]|].
  destruct (ContentController.scheduledDate req) as [|ms iso];
    [split; [discriminate | reflexivity]|].
  destruct (ms <=? now); [split; [discriminate | reflexivity]|].
  match goal with
  | |- context [enqueue env ?q ?m ?s] =>
      destruct (enqueue_undeclared_throws env q m s Hs scheduling_undeclared
                  scheduling_not_inherited) as [e He];
      destruct (enqueue_undeclared env q m s Hs scheduling_undeclared
                  scheduling_not_inherited) as [Ht _];
      destruct (enqueue env q m s) as [q' r]
  end.
  cbn in He, Ht. subst r. split; [discriminate | exact Ht].
Qed.

End UndeclaredQueues.

(** A declared queue, for contrast: the generation job is sent. *)
Example enqueue_declared_sends :
  (QueueService.enqueue Scenario.broker_up "content-generation" Scenario.job
     QueueService.new).2 = Returned true
  ∧ QueueService.trace
      (QueueService.enqueue Scenario.broker_up "content-generation" Scenario.job
         QueueService.new).1
    = [SendToQueue "content-generation" Scenario.first_delivery].
Proof. split; vm_compute; reflexivity. Qed.

(** The scheduling endpoint on the draft item of the scenario: the item is
    updated, then [enqueue] throws and the error goes to [next]. *)
Example schedule_scenario :
  (ContentController.scheduleContent Scenario.broker_up 1700000000000 "job-1"
     Scenario.schedule_request
     (GenerationController.createGenerationRequest Scenario.broker_up Scenario.ids
        (Scenario.request 300) Scenario.world0).1).2
  = Next (QueueNotDefined "content-scheduling").
Proof. vm_compute. reflexivity. Qed.

(** ** Submission *)
Section Submission.

Import GenerationController.

Variables (env : BrokerEnv) (ids : Uuids) (req : Request) (w : World).

(** What a submission does, in two cases: it is turned down with nothing
    written, or the generation is recorded as queued, the cost is taken off
    the balance, and the answer follows the outcome of [enqueue]. *)
Lemma createGenerationRequest_outcome :
  let r := createGenerationRequest env ids req w in
  (r.1 = w ∧ rejection r.2)
  ∨ ∃ (a : CreditAccount.t) (g : ContentGeneration.t) (m : Message) (itemId : string),
      creditAccounts (db w) !! user_id req = Some a
      ∧ cost_of req ≤ CreditAccount.creditsRemaining a
      ∧ creditAccounts (db r.1)
        = <[user_id req :=
              CreditAccount.set_creditsRemaining
                (CreditAccount.creditsRemaining a - cost_of req) a]>
            (creditAccounts (db w))
      ∧ contentGenerations (db r.1)
        = <[generationUuid ids := g]> (contentGenerations (db w))
      ∧ ContentGeneration.status g = ContentGeneration.queued
      ∧ ContentGeneration.estimatedCredits g = cost_of req
      ∧ ContentGeneration.userId g = user_id req
      ∧ queueService r.1 = (QueueService.enqueue env "content-generation" m (queueService w)).1
      ∧ r.2 = match (QueueService.enqueue env "content-generation" m (queueService w)).2 with
              | Thrown e => Next e
              | Returned _ =>
                  Json 202 (GenerationQueued "Content generation request queued successfully"
                              (generationUuid ids) itemId (cost_of req)
                              ContentGeneration.queued)
              end.
Proof.
  destruct w as [d q]. unfold createGenerationRequest, cost_of. cbn [db queueService].
  destruct (validation req); [|turned_down].
  destruct (JS.default_to (isNewContent (body req)) true) eqn:Hnew; cbn [negb].
  - (* new content *)
    destruct (given (templateId (body req))) as [tid|];
      [destruct (findTemplate d tid (user_id req)); [|turned_down]|];
      (destruct (creditAccounts d !! user_id req) as [a|] eqn:Ha; [|turned_down];
       destruct (Z.ltb_spec (CreditAccount.creditsRemaining a)
                   (CreditService.estimateGenerationCost (promptData (body req))
                      (JS.default_to (contentType (body req)) "blog")));
         [turned_down|]; reserved a).
  - (* existing content *)
    destruct (given (contentItemId (body req))) as [cid|];
      [destruct (findContentItem d cid (user_id req)) as [[cid' item]|]; [|turned_down]|];
      (destruct (given (templateId (body req))) as [tid|];
         [destruct (findTemplate d tid (user_id req)); [|turned_down]|]);
      (destruct (creditAccounts d !! user_id req) as [a|] eqn:Ha; [|turned_down];
       destruct (Z.ltb_spec (CreditAccount.creditsRemaining a)
                   (CreditService.estimateGenerationCost (promptData (body req))
                      (JS.default_to (contentType (body req)) "blog")));
         [turned_down|]);
      try reserved a; turned_down.
Qed.

Lemma rejection_not_accepted (r : Response) (body : Body) :
  rejection r → r ≠ Json 202 body.
Proof. destruct r as [code b|e]; cbn; [intros [ -> | [ -> | -> ] ] |]; discriminate. Qed.

Lemma balance_insert (d : Db) (accounts : gmap string CreditAccount.t)
      (userId : string) (a : CreditAccount.t) :
  creditAccounts d = <[userId := a]> accounts →
  balance d userId = Some (CreditAccount.creditsRemaining a).
Proof. intros Hd. unfold balance. rewrite Hd, lookup_insert_eq. reflexivity. Qed.

(** C6. For every submission that succeeds (the 202 answer), the user's
    balance right after it is the balance right before it minus the estimated
    cost of the generation. *)
Theorem accepted_submission_reserves_cost (w' : World) (body : Body) :
  createGenerationRequest env ids req w = (w', Json 202 body) →
  ∃ before : Z,
    balance (db w) (user_id req) = Some before
    ∧ balance (db w') (user_id req) = Some (before - cost_of req)
    ∧ cost_of req ≤ before.
Proof.
  intros Hr. pose proof createGenerationRequest_outcome as Ho. cbv zeta in Ho.
  rewrite Hr in Ho. cbn [fst snd] in Ho.
  destruct Ho as [[_ Hrej]|(a & g & m & itemId & Ha & Hle & Hacc & _)].
  - exfalso. eapply rejection_not_accepted; [exact Hrej | reflexivity].
  - exists (CreditAccount.creditsRemaining a). unfold balance at 1. rewrite Ha.
    split; [reflexivity|]. split; [|exact Hle].
    apply (balance_insert _ _ _ _ Hacc).
Qed.




End Submission.



(** C6 witness: scenario A's submission, 1000 credits and an estimate of 300. *)
Lemma accepted_submission_witness :
  ∃ before : Z,
    balance (db Scenario.world0) Scenario.alice = Some before
    ∧ balance
        (db (GenerationController.createGenerationRequest Scenario.broker_up Scenario.ids
               (Scenario.request 300) Scenario.world0).1) Scenario.alice
      = Some (before - cost_of (Scenario.request 300))
    ∧ cost_of (Scenario.request 300) ≤ before.
Proof.
  eapply (accepted_submission_reserves_cost Scenario.broker_up Scenario.ids
            (Scenario.request 300) Scenario.world0).
  vm_compute. reflexivity.
Defined.


(** ** Cancellation *)
Section Cancellation.

Import GenerationController.

Variables (env : BrokerEnv) (id userId : string) (w : World).

(** What a cancel request does: it is turned down with nothing written, or
    the generation is marked and its reservation is added to the user's
    account, whatever [removeFromQueue] then does. *)
Lemma cancelGeneration_outcome :
  let r := cancelGeneration env id userId w in
  match findGeneration (db w) id userId with
  | None => r = (w, Json 404 (ErrorBody "Generation request not found"))
  | Some g =>
      if bool_decide (ContentGeneration.status g = ContentGeneration.queued)
      then
        contentGenerations (db r.1)
        = <[id := ContentGeneration.set_cancelled_fields ContentGeneration.failed
                    (Some "Cancelled by user") g]> (contentGenerations (db w))
        ∧ creditAccounts (db r.1)
          = match creditAccounts (db w) !! userId with
            | Some a =>
                <[userId := CreditAccount.set_creditsRemaining
                              (CreditAccount.creditsRemaining a
                               + ContentGeneration.estimatedCredits g) a]>
                  (creditAccounts (db w))
            | None => creditAccounts (db w)
            end
        ∧ r.2 = Json 200 (GenerationCancelled "Generation request cancelled successfully"
                            id (ContentGeneration.estimatedCredits g))
      else r = (w, Design.NotCancellable)
  end.
Proof.
  unfold cancelGeneration.
  destruct (findGeneration (db w) id userId) as [g|]; [|reflexivity].
  destruct (bool_decide (ContentGeneration.status g = ContentGeneration.queued));
    [|reflexivity].
  cbn [negb].
  destruct (QueueService.removeFromQueue env "content-generation" id (queueService w))
    as [q' rr].
  cbn. destruct (creditAccounts (db w) !! userId) as [a|]; repeat split; reflexivity.
Qed.

(** C2. For every job of the user, cancel answers the 400 "cannot cancel"
    (NotCancellable) and changes nothing unless the job's status is queued;
    when it is queued, cancel succeeds with 200, the job is put in the
    cancelled state (status failed, error "Cancelled by user"), and the whole
    reserved amount [estimatedCredits] is added back to the user's balance. *)
Theorem cancel_only_when_queued (g : ContentGeneration.t) :
  findGeneration (db w) id userId = Some g →
  (ContentGeneration.status g ≠ ContentGeneration.queued →
   cancelGeneration env id userId w = (w, Design.NotCancellable))
  ∧ (ContentGeneration.status g = ContentGeneration.queued →
     (cancelGeneration env id userId w).2
     = Json 200 (GenerationCancelled "Generation request cancelled successfully"
                   id (ContentGeneration.estimatedCredits g))
     ∧ (∃ g' : ContentGeneration.t,
           contentGenerations (db (cancelGeneration env id userId w).1) !! id = Some g'
           ∧ Design.cancelled g'
           ∧ ContentGeneration.estimatedCredits g' = ContentGeneration.estimatedCredits g)
     ∧ (∀ before : Z,
           balance (db w) userId = Some before →
           balance (db (cancelGeneration env id userId w).1) userId
           = Some (before + ContentGeneration.estimatedCredits g))).
Proof.
  intros Hg. pose proof cancelGeneration_outcome as Ho. cbv zeta in Ho.
  rewrite Hg in Ho. split.
  - intros Hne. rewrite bool_decide_eq_false_2 in Ho by exact Hne. exact Ho.
  - intros Hq. rewrite bool_decide_eq_true_2 in Ho by exact Hq.
    destruct Ho as (Hgen & Hacc & Hr). repeat split.
    + exact Hr.
    + eexists. rewrite Hgen, lookup_insert_eq. repeat split.
    + intros before Hb. unfold balance in *. rewrite Hacc.
      destruct (creditAccounts (db w) !! userId) as [a|]; [|discriminate].
      rewrite lookup_insert_eq. cbn in *. congruence.
Qed.

End Cancellation.

(** C2 witness: the scenario job, queued by an accepted submission, is
    cancelled by its owner. *)
Lemma cancel_witness :
  (GenerationController.cancelGeneration Scenario.broker_up "gen-1" Scenario.alice
     (GenerationController.createGenerationRequest Scenario.broker_up Scenario.ids
        (Scenario.request 300) Scenario.world0).1).2
  = Json 200 (GenerationCancelled "Generation request cancelled successfully" "gen-1" 300).
Proof.
  refine (proj1 (proj2 (cancel_only_when_queued Scenario.broker_up "gen-1" Scenario.alice
                          (GenerationController.createGenerationRequest Scenario.broker_up
                             Scenario.ids (Scenario.request 300) Scenario.world0).1
                          (ContentGeneration.mk Scenario.alice "item-1"
                             (mkStoredPrompt (mkPromptData (Some 300) None None) "blog" None)
                             "default" ContentGeneration.queued 0 300 None)
                          _) _)).
  - vm_compute. reflexivity.
  - reflexivity.
Defined.

(** ** Terminal states and the balance *)
Section TerminalStates.

Import GenerationController.

Lemma cancel_after_accepted_submission (env env2 : BrokerEnv) (ids : Uuids)
      (req : Request) (w w1 : World) (body : Body) :
  createGenerationRequest env ids req w = (w1, Json 202 body) →
  (cancelGeneration env2 (generationUuid ids) (user_id req) w1).2
  = Json 200 (GenerationCancelled "Generation request cancelled successfully"
                (generationUuid ids) (cost_of req))
  ∧ balance (db (cancelGeneration env2 (generationUuid ids) (user_id req) w1).1)
            (user_id req)
    = balance (db w) (user_id req).
Proof.
  intros Hr. pose proof (createGenerationRequest_outcome env ids req w) as Ho.
  cbv zeta in Ho. rewrite Hr in Ho. cbn [fst snd] in Ho.
  destruct Ho as [[_ Hrej]|(a & g & m & itemId & Ha & Hle & Hacc & Hgen & Hst & Hest & Hu & _)].
  { exfalso. eapply rejection_not_accepted; [exact Hrej | reflexivity]. }
  pose proof (cancelGeneration_outcome env2 (generationUuid ids) (user_id req) w1) as Hc.
  cbv zeta in Hc. unfold findGeneration in Hc.
  rewrite Hgen, lookup_insert_eq in Hc.
  rewrite (bool_decide_eq_true_2 _ Hu) in Hc.
  rewrite (bool_decide_eq_true_2 _ Hst) in Hc.
  destruct Hc as (_ & Hacc2 & Hr2). split.
  - rewrite Hr2, Hest. reflexivity.
  - unfold balance. rewrite Hacc2, Hacc, lookup_insert_eq, lookup_insert_eq, Ha.
    cbn. f_equal. lia.
Qed.

Lemma dead_letter_leaves_database (queue : string) (handler : Handler)
      (options : ConsumeOptions) (msg : Envelope) (w : World) :
  (deliver queue handler options msg w).2 = DeadLettered →
  db (deliver queue handler options msg w).1 = (handler (content msg) (db w)).1
  ∧ QueueService.trace (queueService (deliver queue handler options msg w).1)
    = (QueueService.trace (queueService w) ++ [Nack msg false false])%list.
Proof.
  unfold deliver. destruct (handler (content msg) (db w)) as [d' [error|]]; cbn.
  - destruct (QueueService.onHandlerError queue options msg error);
      cbn; [discriminate | discriminate | intros _; split; reflexivity].
  - discriminate.
Qed.

(** C3, as the code has it.  A job cancelled while queued leaves the owner's
    balance where it was before the job was submitted: the whole reservation
    comes back.  A message that has exhausted its retries is only rejected to
    the dead-letter queue: the consumer records the nack and leaves the
    database as the handler left it, so no refund is made on that path. *)
Theorem cancel_refunds_dead_letter_does_not :
  (∀ (env env2 : BrokerEnv) (ids : Uuids) (req : Request) (w w1 : World) (body : Body),
      createGenerationRequest env ids req w = (w1, Json 202 body) →
      (cancelGeneration env2 (generationUuid ids) (user_id req) w1).2
      = Json 200 (GenerationCancelled "Generation request cancelled successfully"
                    (generationUuid ids) (cost_of req))
      ∧ balance (db (cancelGeneration env2 (generationUuid ids) (user_id req) w1).1)
                (user_id req)
        = balance (db w) (user_id req))
  ∧ (∀ (queue : string) (handler : Handler) (options : ConsumeOptions)
       (msg : Envelope) (w : World),
        (deliver queue handler options msg w).2 = DeadLettered →
        db (deliver queue handler options msg w).1 = (handler (content msg) (db w)).1
        ∧ QueueService.trace (queueService (deliver queue handler options msg w).1)
          = (QueueService.trace (queueService w) ++ [Nack msg false false])%list).
Proof.
  split.
  - intros. eapply cancel_after_accepted_submission; eassumption.
  - intros. apply dead_letter_leaves_database; assumption.
Qed.

End TerminalStates.

(** C3 witness: scenario C (cancel while queued) and the dead-letter delivery
    of the scenario job. *)
Lemma terminal_states_witness :
  balance
    (db (GenerationController.cancelGeneration Scenario.broker_up "gen-1" Scenario.alice
           (GenerationController.createGenerationRequest Scenario.broker_up Scenario.ids
              (Scenario.request 300) Scenario.world0).1).1) Scenario.alice
  = balance (db Scenario.world0) Scenario.alice
  ∧ db (deliver "content-generation" Scenario.timing_out Scenario.defaults
          (Scenario.redelivery 3) Scenario.world0).1
    = (Scenario.timing_out (content (Scenario.redelivery 3)) (db Scenario.world0)).1.
Proof.
  split.
  - refine (proj2 (proj1 cancel_refunds_dead_letter_does_not Scenario.broker_up
                     Scenario.broker_up Scenario.ids (Scenario.request 300)
                     Scenario.world0 _ _ _)).
    vm_compute. reflexivity.
  - refine (proj1 (proj2 cancel_refunds_dead_letter_does_not "content-generation"
                     Scenario.timing_out Scenario.defaults (Scenario.redelivery 3)
                     Scenario.world0 _)).
    reflexivity.
Defined.

(** C3 counterexample (the design's scenario B).  A user with 1000 credits
    submits a job estimated at 300 and the worker fails on every delivery.
    The message is retried after 5000, 10000 and 20000 ms and then
    dead-lettered; the balance after the dead-letter transition is 700, not
    the 1000 held before the submission. *)
Lemma exhausted_job_not_refunded :
  balance (db Scenario.world0) Scenario.alice = Some 1000
  ∧ (GenerationController.createGenerationRequest Scenario.broker_up Scenario.ids
       (Scenario.request 300) Scenario.world0).2
    = Json 202 (GenerationQueued "Content generation request queued successfully"
                  "gen-1" "item-1" 300 ContentGeneration.queued)
  ∧ Design.decision_of
      (deliver "content-generation" Scenario.timing_out Scenario.defaults
         Scenario.first_delivery
         (GenerationController.createGenerationRequest Scenario.broker_up Scenario.ids
            (Scenario.request 300) Scenario.world0).1).2
    = Some (Design.Retry 5000)
  ∧ Design.decision_of
      (deliver "content-generation" Scenario.timing_out Scenario.defaults
         (Scenario.redelivery 1)
         (GenerationController.createGenerationRequest Scenario.broker_up Scenario.ids
            (Scenario.request 300) Scenario.world0).1).2
    = Some (Design.Retry 10000)
  ∧ Design.decision_of
      (deliver "content-generation" Scenario.timing_out Scenario.defaults
         (Scenario.redelivery 2)
         (GenerationController.createGenerationRequest Scenario.broker_up Scenario.ids
            (Scenario.request 300) Scenario.world0).1).2
    = Some (Design.Retry 20000)
  ∧ (deliver "content-generation" Scenario.timing_out Scenario.defaults
       (Scenario.redelivery 3)
       (GenerationController.createGenerationRequest Scenario.broker_up Scenario.ids
          (Scenario.request 300) Scenario.world0).1).2
    = DeadLettered
  ∧ balance
      (db (deliver "content-generation" Scenario.timing_out Scenario.defaults
             (Scenario.redelivery 3)
             (GenerationController.createGenerationRequest Scenario.broker_up Scenario.ids
                (Scenario.request 300) Scenario.world0).1).1) Scenario.alice
    = Some 700.
Proof. repeat split; vm_compute; reflexivity. Qed.

(** ** The ledger never goes negative *)
Section Ledger.

Import GenerationController CreditService.

(** The repository's unit tests of [deductCredits]. *)
Example test_deduct_credits :
  let d := mkDb {[ "test-user-id" := CreditAccount.mk 1000 2000 1000 ]} ∅ ∅ ∅ in
  (deductCredits "test-user-id" 500 d).2 = Returned (mkCreditResult true 500)
  ∧ creditAccounts (deductCredits "test-user-id" 500 d).1 !! "test-user-id"
    = Some (CreditAccount.mk 500 2500 1000).
Proof. split; vm_compute; reflexivity. Qed.

Example test_deduct_not_enough :
  let d := mkDb {[ "test-user-id" := CreditAccount.mk 1000 2000 1000 ]} ∅ ∅ ∅ in
  (deductCredits "test-user-id" 1500 d).2 = Thrown InsufficientCreditsError
  ∧ error_message InsufficientCreditsError = "Insufficient credits".
Proof. split; vm_compute; reflexivity. Qed.

Lemma cost_of_nonneg (req : Request) : 0 ≤ cost_of req.
Proof.
  unfold cost_of, estimateGenerationCost.
  etransitivity; [|apply Z.le_max_r]. lia.
Qed.

Lemma deductCredits_insufficient (userId : string) (credits : Z) (d : Db)
      (a : CreditAccount.t) :
  creditAccounts d !! userId = Some a →
  CreditAccount.creditsRemaining a < credits →
  deductCredits userId credits d = (d, Thrown InsufficientCreditsError).
Proof.
  intros Ha Hlt. unfold deductCredits, getCreditAccount. rewrite Ha.
  destruct (Z.ltb_spec (CreditAccount.creditsRemaining a) credits); [reflexivity | lia].
Qed.

Lemma addCredits_balance (userId : string) (credits : Z) (d : Db) (a : CreditAccount.t) :
  creditAccounts d !! userId = Some a →
  balance (addCredits userId credits d).1 userId
  = Some (CreditAccount.creditsRemaining a + credits).
Proof.
  intros Ha. unfold addCredits, getCreditAccount, balance. rewrite Ha. cbn.
  rewrite lookup_insert_eq. reflexivity.
Qed.

Lemma deductCredits_ok (userId : string) (credits : Z) (d : Db) :
  ledger_ok d → ledger_ok (deductCredits userId credits d).1.
Proof.
  intros [Hb Hr]. unfold deductCredits, getCreditAccount.
  destruct (creditAccounts d !! userId) as [a|] eqn:Ha; [|split; assumption].
  destruct (Z.ltb_spec (CreditAccount.creditsRemaining a) credits); [split; assumption|].
  split; [|exact Hr]. apply map_Forall_insert_2; [cbn; lia | exact Hb].
Qed.

Lemma addCredits_ok (userId : string) (credits : Z) (d : Db) :
  0 ≤ credits → ledger_ok d → ledger_ok (addCredits userId credits d).1.
Proof.
  intros Hc [Hb Hr]. unfold addCredits, getCreditAccount.
  destruct (creditAccounts d !! userId) as [a|] eqn:Ha; [|split; assumption].
  split; [|exact Hr]. apply map_Forall_insert_2; [|exact Hb].
  cbn. specialize (Hb _ _ Ha). cbn in Hb. lia.
Qed.

Lemma createGenerationRequest_ok (env : BrokerEnv) (ids : Uuids) (req : Request)
      (w : World) :
  ledger_ok (db w) → ledger_ok (db (createGenerationRequest env ids req w).1).
Proof.
  intros [Hb Hr]. pose proof (createGenerationRequest_outcome env ids req w) as Ho.
  cbv zeta in Ho.
  destruct Ho as [[-> _]|(a & g & m & itemId & Ha & Hle & Hacc & Hgen & _ & Hest & _)];
    [split; assumption|].
  split.
  - unfold balances_nonneg. rewrite Hacc.
    apply map_Forall_insert_2; [cbn; lia | exact Hb].
  - unfold reservations_nonneg. rewrite Hgen.
    apply map_Forall_insert_2; [|exact Hr].
    rewrite Hest. apply cost_of_nonneg.
Qed.

Lemma cancelGeneration_ok (env : BrokerEnv) (id userId : string) (w : World) :
  ledger_ok (db w) → ledger_ok (db (cancelGeneration env id userId w).1).
Proof.
  intros [Hb Hr]. pose proof (cancelGeneration_outcome env id userId w) as Ho.
  cbv zeta in Ho. unfold findGeneration in Ho.
  destruct (contentGenerations (db w) !! id) as [g|] eqn:Hg;
    [|rewrite Ho; split; assumption].
  destruct (bool_decide (ContentGeneration.userId g = userId));
    [|rewrite Ho; split; assumption].
  destruct (bool_decide (ContentGeneration.status g = ContentGeneration.queued));
    [|rewrite Ho; split; assumption].
  destruct Ho as (Hgen & Hacc & _).
  pose proof (Hr _ _ Hg) as Hest. cbn in Hest. split.
  - unfold balances_nonneg. rewrite Hacc.
    destruct (creditAccounts (db w) !! userId) as [a|] eqn:Ha; [|exact Hb].
    apply map_Forall_insert_2; [|exact Hb].
    cbn. specialize (Hb _ _ Ha). cbn in Hb. lia.
  - unfold reservations_nonneg. rewrite Hgen.
    apply map_Forall_insert_2; [exact Hest | exact Hr].
Qed.

Lemma step_ok (op : LedgerOp) (w : World) :
  amount_ok op → ledger_ok (db w) → ledger_ok (db (step op w)).
Proof.
  destruct op as [env ids req|env id userId|userId credits|userId credits];
    cbn [step amount_ok db]; intros Hop Hw.
  - apply createGenerationRequest_ok, Hw.
  - apply cancelGeneration_ok, Hw.
  - apply deductCredits_ok, Hw.
  - apply addCredits_ok; assumption.
Qed.

Lemma states_ok (ops : list LedgerOp) :
  ∀ w : World,
    ledger_ok (db w) → Forall amount_ok ops →
    Forall (λ w', balances_nonneg (db w')) (states ops w).
Proof.
  induction ops as [|op ops IH]; intros w Hw Hops; cbn [states].
  - constructor; [exact (proj1 Hw) | constructor].
  - apply Forall_cons_1 in Hops as [Hop Hops].
    constructor; [exact (proj1 Hw)|].
    apply IH; [apply step_ok; assumption | exact Hops].
Qed.

(** C8. Starting from a ledger with no negative balance and no negative
    reservation, every sequence of ledger operations run one after the other
    (reserve at submission, deduct, refund on cancel, add a credit amount)
    passes only through states in which no user's [creditsRemaining] is
    negative.  A deduction is refused with "Insufficient credits" when the
    balance does not cover it (a reservation likewise, by the 402 answer),
    and an addition of a credit amount raises the balance by that amount. *)
Theorem ledger_never_negative :
  (∀ (ops : list LedgerOp) (w : World),
      ledger_ok (db w) → Forall amount_ok ops →
      Forall (λ w', balances_nonneg (db w')) (states ops w))
  ∧ (∀ (userId : string) (credits : Z) (d : Db) (a : CreditAccount.t),
        creditAccounts d !! userId = Some a →
        CreditAccount.creditsRemaining a < credits →
        deductCredits userId credits d = (d, Thrown InsufficientCreditsError))
  ∧ (∀ (userId : string) (credits : Z) (d : Db) (a : CreditAccount.t),
        creditAccounts d !! userId = Some a →
        0 ≤ credits →
        balance (addCredits userId credits d).1 userId
        = Some (CreditAccount.creditsRemaining a + credits)
        ∧ CreditAccount.creditsRemaining a ≤ CreditAccount.creditsRemaining a + credits).
Proof.
  repeat split.
  - intros ops w. apply states_ok.
  - apply deductCredits_insufficient.
  - apply addCredits_balance; assumption.
  - lia.
Qed.

End Ledger.

(** C8 witness: on the scenario ledger a submission of 300, a deduction of
    200, the cancellation of the job and an addition of 50. *)
Lemma ledger_witness :
  Forall (λ w', balances_nonneg (db w'))
    (states [ Submit Scenario.broker_up Scenario.ids (Scenario.request 300);
              Deduct Scenario.alice 200;
              Cancel Scenario.broker_up "gen-1" Scenario.alice;
              Add Scenario.alice 50 ]
       Scenario.world0).
Proof.
  apply (proj1 ledger_never_negative).
  - split.
    + apply map_Forall_singleton. cbn. lia.
    + apply map_Forall_empty.
  - repeat constructor. cbn. lia.
Defined.

(** * Further properties of the queue service *)
Section QueueLifecycleFacts.

Import QueueService QueueLifecycle.

Lemma declared_absorbs (registered : gset string) :
  registered ⊆ declared →
  registered ∪ list_to_set (fst <$> take (length queueDefinitions) queueDefinitions)
  = declared.
Proof.
  intros Hs. rewrite firstn_all. fold declared. apply subseteq_union_1_L, Hs.
Qed.

Lemma handleConnectionError_well_formed (s : t) :
  connecting s = false → (reconnectAttempts s ≤ maxReconnectAttempts)%nat →
  queues s ⊆ declared →
  well_formed (handleConnectionError s).
Proof.
  intros Hc Ha Hq. unfold handleConnectionError, well_formed.
  destruct (Nat.ltb_spec (reconnectAttempts s) maxReconnectAttempts); cbn;
    (split; [exact Hc|]; split; [lia|]; split; [exact Hq | discriminate]).
Qed.

Lemma connect_well_formed (env : BrokerEnv) (s : t) :
  well_formed s → well_formed (connect env s).1.
Proof.
  intros Hs. pose proof Hs as (Hc & Ha & Hq & Hconn). unfold connect.
  destruct (connected s || connecting s); [exact Hs|].
  assert (well_formed
            (mk true false true
               (queues s ∪ list_to_set
                  (fst <$> take (length queueDefinitions) queueDefinitions))
               0 (trace s))) as Hok.
  { rewrite (declared_absorbs _ Hq). unfold well_formed; cbn.
    split; [reflexivity|]. split; [lia|]. split; [reflexivity|]. intros _. split; reflexivity. }
  destruct (connectOutcome env) as [| |n|].
  - apply handleConnectionError_well_formed; cbn; first [assumption | reflexivity].
  - apply handleConnectionError_well_formed; cbn; first [assumption | reflexivity].
  - destruct (n <? length queueDefinitions)%nat; [|exact Hok].
    apply handleConnectionError_well_formed;
      [reflexivity | exact Ha | exact (setupQueues_declared n _ Hq)].
  - exact Hok.
Qed.

Lemma ensureConnection_well_formed (env : BrokerEnv) (s : t) :
  well_formed s → well_formed (ensureConnection env s).1.
Proof.
  intros Hs. unfold ensureConnection.
  destruct (connected s); [exact Hs | apply connect_well_formed, Hs].
Qed.

Lemma enqueue_well_formed (env : BrokerEnv) (queue : string) (message : Message) (s : t) :
  well_formed s → well_formed (enqueue env queue message s).1.
Proof.
  intros Hs. pose proof (ensureConnection_well_formed env s Hs) as H1.
  unfold enqueue. destruct (ensureConnection env s) as [s1 [u|e]]; [|exact H1].
  cbn in H1. repeat case_match; exact H1.
Qed.

Lemma consume_well_formed (env : BrokerEnv) (queue : string) (options : ConsumeOptions)
      (tag : string) (s : t) :
  well_formed s → well_formed (consume env queue options tag s).1.
Proof.
  intros Hs. pose proof (ensureConnection_well_formed env s Hs) as H1.
  unfold consume. destruct (ensureConnection env s) as [s1 [u|e]]; [|exact H1].
  cbn in H1. repeat case_match; exact H1.
Qed.

Lemma removeFromQueue_well_formed (env : BrokerEnv) (queue messageId : string) (s : t) :
  well_formed s → well_formed (removeFromQueue env queue messageId s).1.
Proof.
  intros Hs. pose proof (ensureConnection_well_formed env s Hs) as H1.
  unfold removeFromQueue. destruct (ensureConnection env s) as [s1 [u|e]]; [|exact H1].
  cbn in H1. repeat case_match; exact H1.
Qed.

Lemma cancelConsumer_well_formed (env : BrokerEnv) (refused : option Error)
      (tag : string) (s : t) :
  well_formed s → well_formed (cancelConsumer env refused tag s).1.
Proof.
  intros Hs. pose proof (ensureConnection_well_formed env s Hs) as H1.
  unfold cancelConsumer. destruct (ensureConnection env s) as [s1 [u|e]]; [|exact H1].
  cbn in H1. repeat case_match; exact H1.
Qed.

Lemma close_well_formed (refused : option Error) (s : t) :
  well_formed s → well_formed (close refused s).1.
Proof.
  intros Hs. pose proof Hs as (Hc & Ha & Hq & _).
  assert (well_formed (mk false (connecting s) false (queues s)
                         (reconnectAttempts s) (trace s))) as Hcleared.
  { unfold well_formed; cbn.
    split; [exact Hc|]. split; [exact Ha|]. split; [exact Hq | discriminate]. }
  unfold close. destruct refused as [e|]; assumption.
Qed.

Lemma reachable_well_formed (s : t) : reachable s → well_formed s.
Proof.
  induction 1 as [|env s _ IH|s _ IH|env q m s _ IH|env q o tag s _ IH
                  |env q m s _ IH|env r tag s _ IH|r s _ IH
                  |q o m out s _ IH|env q m ro s _ IH].
  - unfold well_formed; cbn. split; [reflexivity|]. split; [lia|].
    split; [apply empty_subseteq | discriminate].
  - apply connect_well_formed, IH.
  - destruct IH as (Hc & Ha & Hq & _).
    apply handleConnectionError_well_formed; assumption.
  - apply enqueue_well_formed, IH.
  - apply consume_well_formed, IH.
  - apply removeFromQueue_well_formed, IH.
  - apply cancelConsumer_well_formed, IH.
  - apply close_well_formed, IH.
  - unfold onMessage. repeat case_match; exact IH.
  - unfold onRetryTimer. repeat case_match; exact IH.
Qed.

(** *** The invariant of the interleaved service *)

Lemma handleConnectionError_steady (s : t) (flight : Flight) :
  steady s flight → steady (handleConnectionError s) flight.
Proof.
  intros (HA & HB & HC & HD & HE & _ & _).
  unfold steady, handleConnectionError.
  destruct (Nat.ltb_spec (reconnectAttempts s) maxReconnectAttempts); cbn;
    (split; [exact HA|]; split; [intros Hf; split; [apply HB, Hf | reflexivity]|];
     split; [lia|]; split; [exact HD|]; split; [exact HE|];
     split; [discriminate | intros _; discriminate]).
Qed.

Lemma connectFailed_steady (s : t) (flight : Flight) :
  steady s flight → steady (connectFailed s) Idle.
Proof.
  intros (_ & _ & HC & HD & _ & _ & _).
  unfold steady, connectFailed, handleConnectionError, maxReconnectAttempts in *.
  cbn [reconnectAttempts].
  destruct (Nat.ltb_spec (reconnectAttempts s) 10); cbn;
    (split; [reflexivity|]; split; [intros Hf; contradiction|];
     split; [lia|]; split; [exact HD|]; split; [discriminate|];
     split; [discriminate | intros _; discriminate]).
Qed.

Lemma connect_steady (env : BrokerEnv) (s : t) (flight : Flight) :
  steady s flight → steady (connect env s).1 flight.
Proof.
  intros Hs. pose proof Hs as (HA & HB & HC & HD & HE & HF & HG). unfold connect.
  destruct (connected s || connecting s) eqn:Hguard; [exact Hs|].
  apply orb_false_elim in Hguard as [Hcon Hing].
  assert (flight = Idle) as ->.
  { destruct (decide (flight = Idle)) as [Hf|Hf]; [exact Hf|].
    destruct (HB Hf) as [Hc _]. congruence. }
  assert (steady
            (mk true false true
               (queues s ∪ list_to_set
                  (fst <$> take (length queueDefinitions) queueDefinitions))
               0 (trace s)) Idle) as Hok.
  { rewrite (declared_absorbs _ HD). unfold steady; cbn.
    split; [reflexivity|]. split; [intros Hf; contradiction|]. split; [lia|].
    split; [reflexivity|]. split; [discriminate|]. split; reflexivity. }
  assert (∀ n, steady
                 (handleConnectionError
                    (mk (connected s) false true
                       (queues s ∪ list_to_set (fst <$> take n queueDefinitions))
                       (reconnectAttempts s) (trace s))) Idle) as Hfail.
  { intros n.
    apply (connectFailed_steady
             (mk (connected s) true true
                (queues s ∪ list_to_set (fst <$> take n queueDefinitions))
                (reconnectAttempts s) (trace s)) Dialing).
    unfold steady; cbn.
    split; [discriminate|]. split; [intros _; split; [reflexivity | exact Hcon]|].
    split; [exact HC|]. split; [exact (setupQueues_declared n _ HD)|].
    split; [discriminate|]. split; [congruence | discriminate]. }
  destruct (connectOutcome env) as [| |n|].
  - exact (connectFailed_steady s Idle Hs).
  - exact (connectFailed_steady s Idle Hs).
  - destruct (n <? length queueDefinitions)%nat; [exact (Hfail n) | exact Hok].
  - exact Hok.
Qed.

Lemma ensureConnection_steady (env : BrokerEnv) (s : t) (flight : Flight) :
  steady s flight → steady (ensureConnection env s).1 flight.
Proof.
  intros Hs. unfold ensureConnection.
  destruct (connected s); [exact Hs | apply connect_steady, Hs].
Qed.

(** In every state of the interleaved service the invariant holds. *)
Lemma running_steady (s : t) (flight : Flight) : running s flight → steady s flight.
Proof.
  induction 1 as [|s _ IH Hcon Hing|s _ IH|s _ IH|s done queueName _ IH Hname|s _ IH
                  |s flight _ IH Hf|s flight _ IH|env s flight _ IH
                  |env q m s flight _ IH|env q o tag s flight _ IH
                  |env q m s flight _ IH|env r tag s flight _ IH|r s flight _ IH
                  |q o m out s flight _ IH|env q m ro s flight _ IH].
  - unfold steady; fields. split; [reflexivity|]. split; [intros Hf; contradiction|].
    split; [lia|]. split; [apply empty_subseteq|]. split; [discriminate|].
    split; discriminate.
  - destruct IH as (_ & _ & HC & HD & _ & HF & _). unfold steady; fields.
    split; [discriminate|]. split; [intros _; split; [reflexivity | exact Hcon]|].
    split; [exact HC|]. split; [exact HD|]. split; [discriminate|].
    split; [exact HF | discriminate].
  - destruct IH as (_ & HB & HC & HD & _ & HF & _). unfold steady.
    split; [discriminate|]. split; [intros _; apply HB; discriminate|].
    split; [exact HC|]. split; [exact HD|]. split; [discriminate|].
    split; [exact HF | discriminate].
  - destruct IH as (_ & HB & HC & HD & _ & HF & _). unfold steady; fields.
    split; [discriminate|]. split; [intros _; apply HB; discriminate|].
    split; [exact HC|]. split; [exact HD|].
    split; [intros d Hd; injection Hd as <-; split; [lia | apply empty_subseteq]|].
    split; [exact HF | discriminate].
  - destruct IH as (_ & HB & HC & HD & HE & HF & _).
    destruct (HE done eq_refl) as [_ Hsub].
    destruct (HB ltac:(discriminate)) as [Hing Hcon].
    pose proof (lookup_lt_Some _ _ _ Hname) as Hlt. rewrite length_fmap in Hlt.
    assert (queueName ∈ declared) as Hin.
    { unfold declared. apply elem_of_list_to_set. eapply list_elem_of_lookup_2, Hname. }
    unfold steady; fields.
    split; [discriminate|]. split; [intros _; split; assumption|].
    split; [exact HC|]. split; [apply union_least; [exact HD | set_solver]|].
    split.
    { intros d Hd; injection Hd as <-. split; [lia|].
      rewrite fmap_take, (take_S_r _ _ _ Hname), list_to_set_app_L, <- fmap_take.
      apply union_mono; [exact Hsub|]. cbn [list_to_set fmap list_fmap]. set_solver. }
    split; [congruence | discriminate].
  - destruct IH as (_ & _ & _ & HD & HE & _ & _).
    destruct (HE _ eq_refl) as [_ Hsub]. rewrite firstn_all in Hsub. fold declared in Hsub.
    unfold steady; fields.
    split; [reflexivity|]. split; [intros Hf; contradiction|]. split; [lia|].
    split; [exact HD|]. split; [discriminate|].
    split; [intros _; apply (anti_symm (⊆)); assumption | reflexivity].
  - exact (connectFailed_steady s flight IH).
  - exact (handleConnectionError_steady s flight IH).
  - exact (connect_steady env s flight IH).
  - pose proof (ensureConnection_steady env s flight IH) as H1.
    unfold enqueue. destruct (ensureConnection env s) as [s1 [u|e]]; [|exact H1].
    cbn in H1. repeat case_match; exact H1.
  - pose proof (ensureConnection_steady env s flight IH) as H1.
    unfold consume. destruct (ensureConnection env s) as [s1 [u|e]]; [|exact H1].
    cbn in H1. repeat case_match; exact H1.
  - pose proof (ensureConnection_steady env s flight IH) as H1.
    unfold removeFromQueue. destruct (ensureConnection env s) as [s1 [u|e]]; [|exact H1].
    cbn in H1. repeat case_match; exact H1.
  - pose proof (ensureConnection_steady env s flight IH) as H1.
    unfold cancelConsumer. destruct (ensureConnection env s) as [s1 [u|e]]; [|exact H1].
    cbn in H1. repeat case_match; exact H1.
  - destruct r as [e|]; [exact IH|].
    destruct IH as (HA & HB & HC & HD & HE & _ & _). unfold steady; fields.
    split; [exact HA|]. split; [intros Hf; split; [apply HB, Hf | reflexivity]|].
    split; [exact HC|]. split; [exact HD|]. split; [exact HE|].
    split; [discriminate | intros _; discriminate].
  - unfold onMessage. repeat case_match; exact IH.
  - unfold onRetryTimer. repeat case_match; exact IH.
Qed.

(** The states reached by calls that do not overlap are states of the
    interleaved service with no connect in flight. *)
Lemma reachable_running (s : t) : reachable s → running s Idle.
Proof.
  induction 1; [constructor | | | | | | | | |]; econstructor; eassumption.
Qed.

(** An accepted [connect()] taken whole is its steps one after the other. *)
Lemma connect_accepted_stepwise (env : BrokerEnv) (s : t) :
  connected s = false → connecting s = false →
  connectOutcome env = ConnectAccepted →
  (connect env s).1
  = connectDone
      (queueRegistered "notification"
         (queueRegistered "content-publishing"
            (queueRegistered "content-generation"
               (channelCreated (connectBegun s))))).
Proof.
  intros Hcon Hing Henv. unfold connect. rewrite Hcon, Hing, Henv. cbn.
  unfold connectDone. cbn. f_equal. set_solver.
Qed.

(** X1. At every moment of the singleton's life, with connection attempts
    interleaved at their waits with the other calls, the connection's events
    and the reconnection timer: [connecting] is set exactly while a
    [connect()] is in flight, and the service is then not marked connected;
    at most 10 reconnection attempts are counted; only declared queues are
    registered, and all three of them whenever the service is marked
    connected; and with no connect in flight a channel is held only while the
    service is marked connected.  Calls made after [close] or
    [cancelConsumer] are covered, both being steps of the interleaved
    service, and so are the states reached by calls that do not overlap. *)
Theorem singleton_is_steady :
  (∀ (s : t) (flight : Flight), running s flight → steady s flight)
  ∧ (∀ s : t, reachable s → running s Idle).
Proof. split; [exact running_steady | exact reachable_running]. Qed.

(** C10, as the code has it.  For every queue name that has no definition
    (content-generation, content-publishing and notification have one) and
    is not the name of a member of [Object.prototype], at every moment of the
    service's life, [enqueue] throws and publishes nothing: the error is
    [Queue <name> is not defined] once the connection is ensured, and the
    connection's own error when it cannot be made.  The name
    content-scheduling is such a name, so [scheduleContent] never queues its
    job and never answers 200. *)
Theorem undeclared_queue_is_rejected :
  (∀ (env : BrokerEnv) (queue : string) (message : Message) (s : t) (flight : Flight),
      running s flight →
      queue ≠ "content-generation" → queue ≠ "content-publishing" →
      queue ≠ "notification" →
      JS.inherited queue = false →
      is_thrown (enqueue env queue message s).2 = true
      ∧ trace (enqueue env queue message s).1 = trace s
      ∧ (enqueue env queue message s).2
        = match (ensureConnection env s).2 with
          | Returned _ => Thrown (QueueNotDefined queue)
          | Thrown e => Thrown e
          end
      ∧ error_message (QueueNotDefined queue) = "Queue " +:+ queue +:+ " is not defined")
  ∧ (∀ (env : BrokerEnv) (now : Z) (jobId : string)
       (req : ContentController.ScheduleRequest) (w : World) (flight : Flight),
        running (queueService w) flight →
        (∀ body, (ContentController.scheduleContent env now jobId req w).2 ≠ Json 200 body)
        ∧ trace (queueService (ContentController.scheduleContent env now jobId req w).1)
          = trace (queueService w)).
Proof.
  split.
  - intros env queue message s flight Hs H1 H2 H3 Hi.
    assert (queue ∉ declared) as Hq by (rewrite declared_names; tauto).
    destruct (running_steady s flight Hs) as (_ & _ & _ & Hd & _).
    destruct (enqueue_undeclared env queue message s Hd Hq Hi) as [Ht Hr].
    split; [rewrite Hr; destruct (ensureConnection env s).2; reflexivity|].
    split; [exact Ht|]. split; [exact Hr | reflexivity].
  - intros env now jobId req w flight Hs.
    destruct (running_steady _ flight Hs) as (_ & _ & _ & Hd & _).
    exact (scheduleContent_never_queues env now jobId req w Hd).
Qed.

End QueueLifecycleFacts.

(** C10 witness: the scheduling job on a freshly constructed service with a
    reachable broker. *)
Lemma undeclared_queue_witness :
  (QueueService.enqueue Scenario.broker_up "content-scheduling"
     (SchedulingJob "job-1" "item-1" Scenario.alice None "2030-01-01T00:00:00.000Z")
     QueueService.new).2
  = Thrown (QueueNotDefined "content-scheduling")
  ∧ error_message (QueueNotDefined "content-scheduling")
    = "Queue content-scheduling is not defined".
Proof.
  destruct (proj1 undeclared_queue_is_rejected Scenario.broker_up "content-scheduling"
              (SchedulingJob "job-1" "item-1" Scenario.alice None "2030-01-01T00:00:00.000Z")
              QueueService.new QueueLifecycle.Idle QueueLifecycle.run_new)
    as (_ & _ & Hr & Hm); try discriminate; try reflexivity.
  split; [exact Hr | exact Hm].
Defined.

(** C10 counterexample.  With the broker refusing the connection, the
    scheduling job is turned down with the connection's error, not with
    [Queue content-scheduling is not defined]; and the name [constructor],
    which has no definition, finds [Object.prototype.constructor] in the
    registry: the job is published to it and [enqueue] returns [true]. *)
Lemma undeclared_queue_counterexample :
  (QueueService.enqueue Scenario.broker_down "content-scheduling"
     (SchedulingJob "job-1" "item-1" Scenario.alice None "2030-01-01T00:00:00.000Z")
     QueueService.new).2
  = Thrown BrokerUnavailable
  ∧ (QueueService.enqueue Scenario.broker_up "constructor" Scenario.job
       QueueService.new).2
    = Returned true
  ∧ QueueService.trace
      (QueueService.enqueue Scenario.broker_up "constructor" Scenario.job
         QueueService.new).1
    = [SendToQueue "constructor" Scenario.first_delivery].
Proof. repeat split; vm_compute; reflexivity. Qed.

Section ReconnectBackoff.

Import QueueService QueueLifecycle.

Lemma backoffDelay_bounds (n : nat) :
  (n < 10)%nat → (5000 <= backoffDelay n)%Q ∧ (backoffDelay n <= 30000)%Q.
Proof.
  intros Hn. do 10 (destruct n as [|n]; [split; vm_compute; discriminate|]). lia.
Qed.

Lemma backoffDelay_monotone (n : nat) :
  (n < 9)%nat → (backoffDelay n <= backoffDelay (S n))%Q.
Proof.
  intros Hn. do 9 (destruct n as [|n]; [vm_compute; discriminate|]). lia.
Qed.

Lemma backoffDelay_capped (n : nat) :
  (5 ≤ n < 10)%nat → (backoffDelay n == 30000)%Q.
Proof.
  intros Hn. do 5 (destruct n as [|n]; [lia|]).
  do 5 (destruct n as [|n]; [vm_compute; reflexivity|]). lia.
Qed.

(** X2. While fewer than 10 reconnection attempts are counted, a connection
    error schedules a reconnection and counts one more attempt; the delay is
    5000 ms times 1.5 per attempt already made, never below 5000 ms, never
    above the 30000 ms cap, never shorter than the previous one, and exactly
    30000 ms from the sixth attempt on.  Once 10 attempts are counted no
    reconnection is scheduled and the count stays. *)
Theorem reconnect_backoff (s : t) :
  ((reconnectAttempts s < maxReconnectAttempts)%nat →
   reconnectPlan s = ReconnectIn (backoffDelay (reconnectAttempts s))
   ∧ reconnectAttempts (handleConnectionError s) = S (reconnectAttempts s)
   ∧ (5000 <= backoffDelay (reconnectAttempts s))%Q
   ∧ (backoffDelay (reconnectAttempts s) <= 30000)%Q
   ∧ ((reconnectAttempts s < 9)%nat →
      (backoffDelay (reconnectAttempts s) <= backoffDelay (S (reconnectAttempts s)))%Q)
   ∧ ((5 ≤ reconnectAttempts s)%nat →
      (backoffDelay (reconnectAttempts s) == 30000)%Q))
  ∧ ((maxReconnectAttempts ≤ reconnectAttempts s)%nat →
     reconnectPlan s = ReconnectFailed
     ∧ reconnectAttempts (handleConnectionError s) = reconnectAttempts s).
Proof.
  unfold reconnectPlan, handleConnectionError, maxReconnectAttempts.
  destruct (Nat.ltb_spec (reconnectAttempts s) 10) as [Hlt|Hge]; split; try lia.
  - intros _. split; [reflexivity|]. split; [reflexivity|].
    destruct (backoffDelay_bounds _ Hlt) as [Hlo Hhi].
    split; [exact Hlo|]. split; [exact Hhi|]. split.
    + apply backoffDelay_monotone.
    + intros H5. apply backoffDelay_capped. lia.
  - intros _. split; reflexivity.
Qed.

End ReconnectBackoff.

(** X2 witness: the first and the sixth connection error in a row, and the
    eleventh. *)
Lemma reconnect_backoff_witness :
  QueueLifecycle.reconnectPlan QueueService.new
  = QueueLifecycle.ReconnectIn (QueueLifecycle.backoffDelay 0)
  ∧ (QueueLifecycle.backoffDelay 0 == 5000)%Q
  ∧ (QueueLifecycle.backoffDelay 5 == 30000)%Q
  ∧ QueueLifecycle.reconnectPlan (QueueService.mk false false false ∅ 10 [])
    = QueueLifecycle.ReconnectFailed.
Proof.
  split; [|split; [|split]].
  - apply (proj1 (reconnect_backoff QueueService.new)). cbn. unfold QueueService.maxReconnectAttempts. lia.
  - reflexivity.
  - reflexivity.
  - apply (proj2 (reconnect_backoff (QueueService.mk false false false ∅ 10 []))).
    cbn. unfold QueueService.maxReconnectAttempts. lia.
Defined.

Section EnqueueSucceeds.

Import QueueService QueueLifecycle.

Lemma ensureConnection_connects (env : BrokerEnv) (s : t) :
  well_formed s →
  connected s = true ∨ connectOutcome env = ConnectAccepted →
  (ensureConnection env s).2 = Returned tt
  ∧ connected (ensureConnection env s).1 = true.
Proof.
  intros (Hc & _ & _ & _) Hup. unfold ensureConnection.
  destruct (connected s) eqn:Hcon; [split; [reflexivity | exact Hcon]|].
  destruct Hup as [Hup|Hup]; [discriminate|].
  unfold connect. rewrite Hcon, Hc, Hup. split; reflexivity.
Qed.

(** From a well-formed state a declared queue takes the message as soon as
    the broker does. *)
Lemma enqueue_declared_returns (env : BrokerEnv) (queue : string)
      (message : Message) (s : t) :
  well_formed s →
  queue ∈ declared →
  connected s = true ∨ connectOutcome env = ConnectAccepted →
  sendAccepted env = true →
  (enqueue env queue message s).2 = Returned true
  ∧ connected (enqueue env queue message s).1 = true.
Proof.
  intros Hs Hq Hup Hsend.
  destruct (ensureConnection_connects env s Hs Hup) as [Hr Hcon].
  pose proof (ensureConnection_well_formed env s Hs) as (_ & _ & _ & Hfull).
  unfold enqueue. destruct (ensureConnection env s) as [s1 r]. cbn in *. subst r.
  destruct (Hfull Hcon) as [Hch Hqs].
  rewrite (registered_own _ _ (declared_not_inherited _ Hq)).
  rewrite bool_decide_eq_true_2 by (rewrite Hqs; exact Hq).
  rewrite Hch, Hsend. cbn. split; [reflexivity | exact Hcon].
Qed.

(** What [enqueue] leaves in the trace: nothing new when it throws, the one
    send when it returns. *)
Lemma enqueue_trace (env : BrokerEnv) (queue : string) (message : Message) (s : t) :
  match (enqueue env queue message s).2 with
  | Thrown _ => trace (enqueue env queue message s).1 = trace s
  | Returned _ =>
      trace (enqueue env queue message s).1
      = (trace s ++ [SendToQueue queue
                       (mkEnvelope message
                          (mkProperties true (message_messageId message) None))])%list
  end.
Proof.
  pose proof (ensureConnection_trace env s) as Ht.
  unfold enqueue. destruct (ensureConnection env s) as [s1 [u|e]]; cbn in *; [|exact Ht].
  destruct (negb (JS.registered (queues s1) queue)); [exact Ht|].
  destruct (negb (channel s1)); [exact Ht|].
  destruct (negb (sendAccepted env)); [exact Ht|].
  cbn. rewrite Ht. reflexivity.
Qed.


End EnqueueSucceeds.


Section RetryLoop.

Import QueueService QueueLifecycle.

Variables (queue : string) (options : ConsumeOptions) (error : HandlerError).

Lemma failingDelays_spec (n : nat) :
  ∀ (fuel : nat) (msg : Envelope),
    retriesLeft options msg = n → (n < fuel)%nat →
    failingDelays fuel queue options msg error
    = Some (map (λ i, backoff options (retryCountOf msg + N.of_nat i)) (seq 0 n)).
Proof.
  induction n as [|n IH]; intros fuel msg Hn Hfuel;
    (destruct fuel as [|fuel]; [lia|]); cbn [failingDelays]; unfold retriesLeft in Hn.
  - rewrite onHandlerError_exhausted by lia. reflexivity.
  - rewrite onHandlerError_retry by lia.
    rewrite (IH fuel); [| unfold retriesLeft; cbn; lia | lia].
    cbn [fmap option_fmap option_map seq map]. f_equal. f_equal.
    + unfold backoff. do 3 f_equal. lia.
    + rewrite <- seq_shift, map_map. apply map_ext. intros i. cbn.
      f_equal. lia.
Qed.

Lemma backoff_sum (n : nat) (r : N) :
  fold_right Z.add 0 (map (λ i, backoff options (r + N.of_nat i)) (seq 0 n))
  = JS.or_num (retryDelay options) 5000 * 2 ^ Z.of_N r * (2 ^ Z.of_nat n - 1).
Proof.
  revert r. induction n as [|n IH]; intros r.
  - cbn. lia.
  - cbn [seq map fold_right]. rewrite <- seq_shift, map_map.
    rewrite (map_ext _ (λ i, backoff options (N.succ r + N.of_nat i)))
      by (intros i; f_equal; lia).
    rewrite IH. unfold backoff.
    replace (r + N.of_nat 0)%N with r by lia.
    rewrite N2Z.inj_succ, Nat2Z.inj_succ, !Z.pow_succ_r by lia. ring.
Qed.

(** X4. A message whose handler throws on every delivery is retried exactly
    as many times as its retry count is short of [maxRetries] (3 unless
    configured), each retry waiting [retryDelay * 2^count] with the count one
    higher every time, and is then rejected to the dead-letter queue; the
    waits add up to [retryDelay * 2^count * (2^retries - 1)].  The loop ends:
    any fuel above the number of retries left gives this result. *)
Theorem failing_message_is_dead_lettered (msg : Envelope) (fuel : nat) :
  (retriesLeft options msg < fuel)%nat →
  ∃ delays : list Z,
    failingDelays fuel queue options msg error = Some delays
    ∧ length delays = retriesLeft options msg
    ∧ delays = map (λ i, backoff options (retryCountOf msg + N.of_nat i))
                   (seq 0 (retriesLeft options msg))
    ∧ fold_right Z.add 0 delays
      = JS.or_num (retryDelay options) 5000 * 2 ^ Z.of_N (retryCountOf msg)
        * (2 ^ Z.of_nat (retriesLeft options msg) - 1).
Proof.
  intros Hfuel. eexists. split; [apply (failingDelays_spec _ fuel msg eq_refl Hfuel)|].
  split; [rewrite length_map, length_seq; reflexivity|].
  split; [reflexivity | apply backoff_sum].
Qed.

End RetryLoop.

(** X4 witness: the scenario job on its first delivery with the default
    options: three retries after 5, 10 and 20 seconds, 35 seconds in all. *)
Lemma failing_message_witness :
  QueueLifecycle.failingDelays 4 "content-generation" Scenario.defaults
    Scenario.first_delivery Scenario.invalid_prompt
  = Some [5000; 10000; 20000].
Proof.
  destruct (failing_message_is_dead_lettered "content-generation" Scenario.defaults
              Scenario.invalid_prompt Scenario.first_delivery 4)
    as (delays & Hd & _ & Heq & _).
  - vm_compute. lia.
  - rewrite Hd, Heq. reflexivity.
Defined.

(** * Further properties of the credit service *)
Section CreditServiceFacts.

Import CreditService.

(** X5. [deductCredits] succeeds exactly when [hasEnoughCredits] answers
    true for the same user and amount; when it answers false the deduction
    throws "Insufficient credits" and writes nothing, and for a user without
    an account both throw the same "Credit account not found" error. *)
Theorem deduct_succeeds_iff_has_enough (userId : string) (credits : Z) (d : Db) :
  (hasEnoughCredits userId credits d = Returned true
   ↔ ∃ r, (deductCredits userId credits d).2 = Returned r)
  ∧ (hasEnoughCredits userId credits d = Returned false →
     deductCredits userId credits d = (d, Thrown InsufficientCreditsError))
  ∧ (∀ e, hasEnoughCredits userId credits d = Thrown e
          ↔ deductCredits userId credits d = (d, Thrown e)
            ∧ e = CreditAccountNotFound userId).
Proof.
  unfold hasEnoughCredits, deductCredits, getCreditAccount.
  destruct (creditAccounts d !! userId) as [a|].
  - destruct (Z.ltb_spec (CreditAccount.creditsRemaining a) credits) as [Hlt|Hge];
      destruct (Z.leb_spec credits (CreditAccount.creditsRemaining a)); try lia.
    + split; [split; [discriminate | intros [r Hr]; discriminate]|].
      split; [reflexivity|]. intros e. split; [discriminate | intros [Hd ->]; discriminate Hd].
    + split; [split; [eauto | reflexivity]|].
      split; [discriminate|]. intros e. split; [discriminate | intros [Hd ->]; discriminate Hd].
  - split; [split; [discriminate | intros [r Hr]; discriminate]|].
    split; [discriminate|]. intros e. split.
    + intros [= <-]. split; reflexivity.
    + intros [_ ->]. reflexivity.
Qed.

(** X6. A deduction that the balance covers moves the amount from
    [creditsRemaining] to [creditsUsed] of that user's account, so their sum
    is unchanged; it reports the new balance, keeps the monthly allowance,
    and leaves every other account and every other table as it was. *)
Theorem deduct_moves_credits (userId : string) (credits : Z) (d : Db)
        (a : CreditAccount.t) :
  creditAccounts d !! userId = Some a →
  credits ≤ CreditAccount.creditsRemaining a →
  ∃ a' : CreditAccount.t,
    creditAccounts (deductCredits userId credits d).1 !! userId = Some a'
    ∧ CreditAccount.creditsRemaining a' = CreditAccount.creditsRemaining a - credits
    ∧ CreditAccount.creditsUsed a' = CreditAccount.creditsUsed a + credits
    ∧ CreditAccount.creditsRemaining a' + CreditAccount.creditsUsed a'
      = CreditAccount.creditsRemaining a + CreditAccount.creditsUsed a
    ∧ CreditAccount.monthlyAllowance a' = CreditAccount.monthlyAllowance a
    ∧ (deductCredits userId credits d).2
      = Returned (mkCreditResult true (CreditAccount.creditsRemaining a'))
    ∧ (∀ other, other ≠ userId →
         creditAccounts (deductCredits userId credits d).1 !! other
         = creditAccounts d !! other)
    ∧ contentGenerations (deductCredits userId credits d).1 = contentGenerations d
    ∧ contentItems (deductCredits userId credits d).1 = contentItems d.
Proof.
  intros Ha Hle. unfold deductCredits, getCreditAccount. rewrite Ha.
  destruct (Z.ltb_spec (CreditAccount.creditsRemaining a) credits); [lia|].
  cbn. eexists. rewrite lookup_insert_eq. split; [reflexivity|]. cbn.
  repeat split; try lia.
  intros other Hne. apply lookup_insert_ne. congruence.
Qed.

(** X7. Adding back the amount of a deduction restores the balance but not
    the usage: after [deductCredits] then [addCredits] of the same amount,
    [creditsRemaining] is what it was and [creditsUsed] still counts the
    deduction.  In the other order, on a non-negative balance, the balance is
    restored as well. *)
Theorem deduct_then_add_back (userId : string) (credits : Z) (d : Db)
        (a : CreditAccount.t) :
  creditAccounts d !! userId = Some a →
  (credits ≤ CreditAccount.creditsRemaining a →
   creditAccounts (addCredits userId credits (deductCredits userId credits d).1).1
     !! userId
   = Some (CreditAccount.mk (CreditAccount.creditsRemaining a)
             (CreditAccount.creditsUsed a + credits)
             (CreditAccount.monthlyAllowance a)))
  ∧ (0 ≤ CreditAccount.creditsRemaining a →
     balance (deductCredits userId credits (addCredits userId credits d).1).1 userId
     = balance d userId).
Proof.
  intros Ha. split.
  - intros Hle. unfold deductCredits, getCreditAccount. rewrite Ha.
    destruct (Z.ltb_spec (CreditAccount.creditsRemaining a) credits); [lia|].
    unfold addCredits, getCreditAccount. cbn. rewrite lookup_insert_eq. cbn.
    rewrite lookup_insert_eq. f_equal. unfold CreditAccount.set_creditsRemaining. cbn.
    f_equal. lia.
  - intros Hnn. unfold addCredits, getCreditAccount. rewrite Ha.
    unfold deductCredits, getCreditAccount. cbn. rewrite lookup_insert_eq. cbn.
    destruct (Z.ltb_spec (CreditAccount.creditsRemaining a + credits) credits); [lia|].
    unfold balance. cbn. rewrite lookup_insert_eq, Ha. cbn. f_equal. lia.
Qed.

End CreditServiceFacts.

(** X6 witness: the repository's deduction test, 500 off 1000 with 2000 used. *)
Lemma deduct_moves_witness :
  ∃ a' : CreditAccount.t,
    creditAccounts
      (CreditService.deductCredits "test-user-id" 500
         (mkDb {[ "test-user-id" := CreditAccount.mk 1000 2000 1000 ]} ∅ ∅ ∅)).1
      !! "test-user-id" = Some a'
    ∧ CreditAccount.creditsRemaining a' = 1000 - 500
    ∧ CreditAccount.creditsUsed a' = 2000 + 500.
Proof.
  destruct (deduct_moves_credits "test-user-id" 500
              (mkDb {[ "test-user-id" := CreditAccount.mk 1000 2000 1000 ]} ∅ ∅ ∅)
              (CreditAccount.mk 1000 2000 1000))
    as (a' & Ha & Hr & Hu & _).
  - reflexivity.
  - cbn. lia.
  - exists a'. split; [exact Ha|]. split; assumption.
Defined.

(** X7 witness: 300 deducted from the scenario account and added back. *)
Lemma deduct_then_add_witness :
  creditAccounts
    (CreditService.addCredits Scenario.alice 300
       (CreditService.deductCredits Scenario.alice 300 Scenario.db0).1).1
    !! Scenario.alice
  = Some (CreditAccount.mk 1000 (0 + 300) 1000).
Proof.
  apply (proj1 (deduct_then_add_back Scenario.alice 300 Scenario.db0
                  (CreditAccount.mk 1000 0 1000) eq_refl)).
  cbn. lia.
Defined.

Section BillingFacts.

Import Billing.

Lemma creditPackages_positive (packageId : string) (credits : Z) (price : Q) :
  creditPackages !! packageId = Some (credits, price) → 5000 ≤ credits.
Proof.
  unfold creditPackages. intros H.
  repeat (rewrite lookup_insert in H; case_decide;
          [injection H as <- _; lia|]).
  rewrite lookup_singleton in H. case_decide; [injection H as <- _; lia | discriminate].
Qed.

(** X8. A credit purchase of a package id that is neither one of the four
    packages nor the name of a member of [Object.prototype] throws "Invalid
    credit package" and writes nothing; an id that names such a member passes
    the test on the table and is not turned down as invalid.  For one of the
    four packages one completed one-time payment record is appended with the
    package's price and credits, and the buyer's balance grows by exactly the
    package's credits (at least 5000) with [creditsUsed] untouched; when the
    buyer has no credit account the payment record is appended all the same
    and the account error is thrown. *)
Theorem purchase_adds_package_credits (userId packageId : string)
        (paymentDetails : PaymentDetails) (st : Store) :
  (creditPackages !! packageId = None → JS.inherited packageId = false →
   processCreditPurchase userId packageId paymentDetails st
   = (st, Raised (InvalidCreditPackage packageId)))
  ∧ (JS.inherited packageId = true →
     (processCreditPurchase userId packageId paymentDetails st).2
     ≠ Raised (InvalidCreditPackage packageId))
  ∧ (∀ (credits : Z) (price : Q),
        creditPackages !! packageId = Some (credits, price) →
        let record :=
          PaymentRecord.mk userId PaymentRecord.one_time price "USD"
            PaymentRecord.completed (method paymentDetails) (id paymentDetails)
            (details_paddleTransactionId paymentDetails) packageId credits in
        let after := (processCreditPurchase userId packageId paymentDetails st).1 in
        paymentRecords after = (paymentRecords st ++ [record])%list
        ∧ 5000 ≤ credits
        ∧ match creditAccounts (ledger st) !! userId with
          | Some a =>
              creditAccounts (ledger after) !! userId
              = Some (CreditAccount.mk (CreditAccount.creditsRemaining a + credits)
                        (CreditAccount.creditsUsed a) (CreditAccount.monthlyAllowance a))
              ∧ (processCreditPurchase userId packageId paymentDetails st).2
                = Done (mkPurchaseResult record credits)
          | None =>
              ledger after = ledger st
              ∧ (processCreditPurchase userId packageId paymentDetails st).2
                = Raised (LedgerError (CreditAccountNotFound userId))
          end).
Proof.
  split; [|split].
  - intros Hnone Hi. unfold processCreditPurchase, JS.get. rewrite Hnone, Hi. reflexivity.
  - intros Hi. unfold processCreditPurchase, JS.get.
    destruct (creditPackages !! packageId) as [[credits price]|] eqn:Hp.
    + exfalso. revert Hp. unfold creditPackages, JS.inherited, JS.prototypeMembers in *.
      cbn [existsb] in Hi.
      repeat (apply orb_prop in Hi as [Hi|Hi];
              [apply String.eqb_eq in Hi; subst; discriminate|]).
      discriminate Hi.
    + rewrite Hi. discriminate.
  - intros credits price Hp. cbv zeta. unfold processCreditPurchase, JS.get. rewrite Hp.
    unfold CreditService.addCredits, CreditService.getCreditAccount. cbn.
    destruct (creditAccounts (ledger st) !! userId) as [a|]; cbn.
    + split; [reflexivity|]. split; [exact (creditPackages_positive _ _ _ Hp)|].
      rewrite lookup_insert_eq. split; reflexivity.
    + split; [reflexivity|]. split; [exact (creditPackages_positive _ _ _ Hp)|].
      split; reflexivity.
Qed.

Lemma findActiveSubscription_some (st : Store) (userId : string) :
  (∃ sub, In sub (subscriptions st)
          ∧ Subscription.userId sub = userId
          ∧ Subscription.status sub = Subscription.active)
  ↔ ∃ sub, findActiveSubscription st userId = Some sub.
Proof.
  unfold findActiveSubscription. split.
  - intros (sub & Hin & Hu & Hs).
    destruct (find _ (subscriptions st)) as [found|] eqn:Hf; [eauto|].
    exfalso. pose proof (find_none _ _ Hf sub Hin) as Hn. cbn in Hn.
    rewrite !bool_decide_eq_true_2 in Hn by assumption. discriminate.
  - intros [sub Hf]. apply find_some in Hf as [Hin Hb].
    apply andb_prop in Hb as [Hu Hs].
    apply bool_decide_eq_true_1 in Hu, Hs. eauto.
Qed.

Lemma renewMonthlyCredits_active (now : Z) (userId : string) (st : Store)
      (a : CreditAccount.t) :
  creditAccounts (ledger st) !! userId = Some a →
  (∃ sub, In sub (subscriptions st)
          ∧ Subscription.userId sub = userId
          ∧ Subscription.status sub = Subscription.active) →
  creditAccounts (ledger (renewMonthlyCredits now userId st).1) !! userId
  = Some (CreditAccount.mk (CreditAccount.monthlyAllowance a)
            (CreditAccount.creditsUsed a) (CreditAccount.monthlyAllowance a))
  ∧ renewalDates (renewMonthlyCredits now userId st).1 !! userId
    = Some (now, now + 2592000000)
  ∧ (renewMonthlyCredits now userId st).2
    = Done (Renewed (CreditAccount.monthlyAllowance a) (now + 2592000000))
  ∧ ledger (renewMonthlyCredits now userId (renewMonthlyCredits now userId st).1).1
    = ledger (renewMonthlyCredits now userId st).1.
Proof.
  intros Ha Hsub. apply findActiveSubscription_some in Hsub as [sub Hf].
  unfold renewMonthlyCredits, CreditService.getCreditAccount.
  rewrite Ha, Hf. cbn. rewrite !lookup_insert_eq.
  split; [reflexivity|]. split; [reflexivity|]. split; [reflexivity|].
  unfold findActiveSubscription in *. cbn. rewrite Hf. cbn.
  rewrite insert_insert_eq. reflexivity.
Qed.

(** X9. For a user with a credit account, the monthly renewal does nothing
    and reports [no_active_subscription] unless the user has an active
    subscription; with one, the balance is set to the monthly allowance
    whatever it was before (unused credits are not carried over, a balance
    above the allowance is cut back), [creditsUsed] is kept, the renewal
    dates become now and now plus thirty days, and renewing again right away
    changes the ledger no further. *)
Theorem renewal_resets_balance (now : Z) (userId : string) (st : Store)
        (a : CreditAccount.t) :
  creditAccounts (ledger st) !! userId = Some a →
  ((¬ ∃ sub, In sub (subscriptions st)
             ∧ Subscription.userId sub = userId
             ∧ Subscription.status sub = Subscription.active) →
   renewMonthlyCredits now userId st = (st, Done (NotRenewed "no_active_subscription")))
  ∧ ((∃ sub, In sub (subscriptions st)
             ∧ Subscription.userId sub = userId
             ∧ Subscription.status sub = Subscription.active) →
     creditAccounts (ledger (renewMonthlyCredits now userId st).1) !! userId
     = Some (CreditAccount.mk (CreditAccount.monthlyAllowance a)
               (CreditAccount.creditsUsed a) (CreditAccount.monthlyAllowance a))
     ∧ renewalDates (renewMonthlyCredits now userId st).1 !! userId
       = Some (now, now + 2592000000)
     ∧ (renewMonthlyCredits now userId st).2
       = Done (Renewed (CreditAccount.monthlyAllowance a) (now + 2592000000))
     ∧ ledger (renewMonthlyCredits now userId (renewMonthlyCredits now userId st).1).1
       = ledger (renewMonthlyCredits now userId st).1).
Proof.
  intros Ha. split.
  - intros Hno. unfold renewMonthlyCredits, CreditService.getCreditAccount. rewrite Ha.
    destruct (findActiveSubscription st userId) as [sub|] eqn:Hf; [|reflexivity].
    exfalso. apply Hno, findActiveSubscription_some. eauto.
  - apply renewMonthlyCredits_active, Ha.
Qed.

Lemma subscriptionPlans_lookup (planId : string) (credits : Z) (planType : string) :
  subscriptionPlans !! planId = Some (credits, planType) →
  planType = planId ∧ 5000 ≤ credits.
Proof.
  unfold subscriptionPlans. intros H.
  repeat (rewrite lookup_insert in H; case_decide;
          [injection H as <- <-; subst; split; [reflexivity | lia]|]).
  rewrite lookup_singleton in H.
  case_decide; [injection H as <- <-; subst; split; [reflexivity | lia] | discriminate].
Qed.

(** X10. Changing the subscription plan to a plan id that is neither one of
    the three plans nor the name of a member of [Object.prototype] throws
    "Invalid subscription plan" and writes nothing; an id that names such a
    member passes the test on the table and is not turned down as invalid.
    For one of the three plans and a user with an account it records the plan
    type and the plan's monthly credits as the allowance and leaves the
    current balance alone; the new allowance is what the next renewal of an
    active subscriber sets the balance to. *)
Theorem plan_change_takes_effect_at_renewal (now : Z) (userId planId : string)
        (st : Store) (a : CreditAccount.t) :
  creditAccounts (ledger st) !! userId = Some a →
  (subscriptionPlans !! planId = None → JS.inherited planId = false →
   updateSubscriptionPlan userId planId st
   = (st, Raised (InvalidSubscriptionPlan planId)))
  ∧ (JS.inherited planId = true →
     (updateSubscriptionPlan userId planId st).2
     ≠ Raised (InvalidSubscriptionPlan planId))
  ∧ (∀ (credits : Z) (planType : string),
        subscriptionPlans !! planId = Some (credits, planType) →
        let changed := (updateSubscriptionPlan userId planId st).1 in
        creditAccounts (ledger changed) !! userId
        = Some (CreditAccount.mk (CreditAccount.creditsRemaining a)
                  (CreditAccount.creditsUsed a) credits)
        ∧ planTypes changed !! userId = Some planId
        ∧ (updateSubscriptionPlan userId planId st).2 = Done (mkPlanResult planId credits)
        ∧ ((∃ sub, In sub (subscriptions st)
                   ∧ Subscription.userId sub = userId
                   ∧ Subscription.status sub = Subscription.active) →
           balance (ledger (renewMonthlyCredits now userId changed).1) userId
           = Some credits)).
Proof.
  intros Ha. split; [|split].
  - intros Hnone Hi. unfold updateSubscriptionPlan, JS.get. rewrite Hnone, Hi. reflexivity.
  - intros Hi. unfold updateSubscriptionPlan, JS.get, CreditService.getCreditAccount.
    rewrite Ha.
    destruct (subscriptionPlans !! planId) as [[credits planType]|] eqn:Hp.
    + exfalso. revert Hp. unfold subscriptionPlans, JS.inherited, JS.prototypeMembers in *.
      cbn [existsb] in Hi.
      repeat (apply orb_prop in Hi as [Hi|Hi];
              [apply String.eqb_eq in Hi; subst; discriminate|]).
      discriminate Hi.
    + rewrite Hi. discriminate.
  - intros credits planType Hp. cbv zeta.
    destruct (subscriptionPlans_lookup _ _ _ Hp) as [-> _].
    unfold updateSubscriptionPlan, JS.get, CreditService.getCreditAccount. rewrite Hp, Ha. cbn.
    rewrite !lookup_insert_eq.
    split; [reflexivity|]. split; [reflexivity|]. split; [reflexivity|].
    intros Hsub.
    set (changed := mkStore _ _ _ _ _).
    assert (creditAccounts (ledger changed) !! userId
            = Some (CreditAccount.mk (CreditAccount.creditsRemaining a)
                      (CreditAccount.creditsUsed a) credits)) as Hc
      by (subst changed; cbn; apply lookup_insert_eq).
    destruct (renewMonthlyCredits_active now userId changed _ Hc Hsub) as (Hacc & _).
    unfold balance. rewrite Hacc. reflexivity.
Qed.

End BillingFacts.

(** X8 witness: the scenario user buys the small package. *)
Lemma purchase_witness :
  creditAccounts
    (Billing.ledger
       (Billing.processCreditPurchase Scenario.alice "small" BillingScenario.card
          BillingScenario.subscriber).1) !! Scenario.alice
  = Some (CreditAccount.mk (1000 + 5000) 0 1000)
  ∧ Billing.processCreditPurchase Scenario.alice "nano" BillingScenario.card
      BillingScenario.subscriber
    = (BillingScenario.subscriber, Billing.Raised (Billing.InvalidCreditPackage "nano")).
Proof.
  split.
  - apply (proj2 (proj2 (purchase_adds_package_credits Scenario.alice "small"
                           BillingScenario.card BillingScenario.subscriber))
             5000 (999 # 100)%Q eq_refl).
  - apply (proj1 (purchase_adds_package_credits Scenario.alice "nano"
                    BillingScenario.card BillingScenario.subscriber));
      reflexivity.
Defined.

(** X9 witness: the scenario subscriber is renewed to the allowance of
    1000. *)
Lemma renewal_witness :
  creditAccounts
    (Billing.ledger
       (Billing.renewMonthlyCredits 1700000000000 Scenario.alice
          BillingScenario.subscriber).1) !! Scenario.alice
  = Some (CreditAccount.mk 1000 0 1000).
Proof.
  refine (proj1 (proj2 (renewal_resets_balance 1700000000000 Scenario.alice
                          BillingScenario.subscriber (CreditAccount.mk 1000 0 1000)
                          eq_refl) _)).
  exists (Subscription.mk Scenario.alice "basic" Subscription.active).
  split; [cbn; tauto | split; reflexivity].
Defined.

(** X10 witness: the scenario subscriber moves to the pro plan. *)
Lemma plan_change_witness :
  creditAccounts
    (Billing.ledger
       (Billing.updateSubscriptionPlan Scenario.alice "pro"
          BillingScenario.subscriber).1) !! Scenario.alice
  = Some (CreditAccount.mk 1000 0 25000).
Proof.
  apply (proj2 (proj2 (plan_change_takes_effect_at_renewal 0 Scenario.alice "pro"
                         BillingScenario.subscriber (CreditAccount.mk 1000 0 1000)
                         eq_refl))
           25000 "pro" eq_refl).
Defined.

(** * Further properties of the controllers *)

(** ** Publishing and scheduling a content item *)
Section Publishing.

Import QueueService QueueLifecycle ContentPublishing.

Lemma publishing_declared : "content-publishing" ∈ declared.
Proof. rewrite declared_names. right. left. reflexivity. Qed.

(** The item a started publishing job leaves behind. *)
Lemma publishContent_started (env : BrokerEnv) (nowIso jobId : string)
      (req : PublishRequest) (w : World) (a b : string) :
  (publishContent env nowIso jobId req w).2 = PublishingStarted a b →
  ∃ item,
    contentItems (db (publishContent env nowIso jobId req w).1) !! params_id req
    = Some item
    ∧ ContentItem.status item = ContentItem.published.
Proof.
  unfold publishContent.
  destruct (validation req); [|discriminate].
  destruct (contentItems (db w) !! params_id req) as [item|]; [|discriminate].
  destruct (_ && _); [discriminate|].
  destruct (_ && _); [discriminate|].
  destruct (enqueue _ _ _ _) as [q' [r|e]]; [|discriminate].
  intros _. cbn. rewrite lookup_insert_eq. eauto.
Qed.

(** X11. [publishContent] is all or nothing.  Either it answers with an
    error and the database is exactly as before, with nothing sent to the
    channel; or it answers 202, the one message sent is the publishing job
    for this item on the content-publishing queue, the item's status is
    published, and no other content item, no generation and no account is
    touched. *)
Theorem publish_all_or_nothing (env : BrokerEnv) (nowIso jobId : string)
        (req : PublishRequest) (w : World) :
  ((∃ r, (publishContent env nowIso jobId req w).2 = Replied r)
   ∧ db (publishContent env nowIso jobId req w).1 = db w
   ∧ trace (queueService (publishContent env nowIso jobId req w).1)
     = trace (queueService w))
  ∨ ((publishContent env nowIso jobId req w).2 = PublishingStarted jobId (params_id req)
     ∧ trace (queueService (publishContent env nowIso jobId req w).1)
       = (trace (queueService w)
          ++ [SendToQueue "content-publishing"
                (mkEnvelope
                   (PublishingJob jobId (params_id req) (user_id req) (integrationId req))
                   (mkProperties true (Some jobId) None))])%list
     ∧ (ContentItem.status
          <$> contentItems (db (publishContent env nowIso jobId req w).1) !! params_id req)
       = Some ContentItem.published
     ∧ (∀ other, other ≠ params_id req →
          contentItems (db (publishContent env nowIso jobId req w).1) !! other
          = contentItems (db w) !! other)
     ∧ contentGenerations (db (publishContent env nowIso jobId req w).1)
       = contentGenerations (db w)
     ∧ creditAccounts (db (publishContent env nowIso jobId req w).1)
       = creditAccounts (db w)).
Proof.
  unfold publishContent.
  destruct (validation req); [|left; split; [eauto | split; reflexivity]].
  destruct (contentItems (db w) !! params_id req) as [item|];
    [|left; split; [eauto | split; reflexivity]].
  destruct (_ && _); [left; split; [eauto | split; reflexivity]|].
  destruct (_ && _); [left; split; [eauto | split; reflexivity]|].
  match goal with
  | |- context [enqueue env ?q ?m ?s] =>
      pose proof (enqueue_trace env q m s) as Ht;
      destruct (enqueue env q m s) as [q' [b|e]]
  end; cbn in Ht |- *.
  - right. split; [reflexivity|]. split; [exact Ht|].
    rewrite lookup_insert_eq. split; [reflexivity|].
    split; [|split; reflexivity].
    intros other Ho. rewrite lookup_insert_ne by congruence. reflexivity.
  - left. split; [eauto | split; [reflexivity | exact Ht]].
Qed.

(** X12. A content item is published at most once: after a 202 answer,
    every further publish request for the same item, by anyone, at any time
    and whatever the broker does, is answered 400 or 403 and changes
    nothing. *)
Theorem publish_twice_rejected (env env2 : BrokerEnv) (nowIso nowIso2 jobId jobId2 : string)
        (req req2 : PublishRequest) (w : World) :
  (publishContent env nowIso jobId req w).2 = PublishingStarted jobId (params_id req) →
  params_id req2 = params_id req →
  ∃ code body,
    publishContent env2 nowIso2 jobId2 req2 (publishContent env nowIso jobId req w).1
    = ((publishContent env nowIso jobId req w).1, Replied (Json code body))
    ∧ (code = 400 ∨ code = 403).
Proof.
  intros Hstarted Hid.
  destruct (publishContent_started env nowIso jobId req w _ _ Hstarted)
    as (item & Hitem & Hst).
  unfold publishContent at 1.
  destruct (validation req2) eqn:Hv; [|eauto 6].
  rewrite Hid, Hitem.
  destruct (_ && _); [eauto 6|].
  rewrite Hst. cbn. eauto 6.
Qed.

(** X13. With the service in a well-formed state, a broker that accepts the
    connection (or a service already connected) and a channel that accepts
    the message, a valid publish request by the owner or an admin for an item
    in draft or generated status is answered 202 and the item ends up
    published: content-publishing is one of the declared queues. *)
Theorem publish_accepted (env : BrokerEnv) (nowIso jobId : string)
        (req : PublishRequest) (w : World) (item : ContentItem.t) :
  well_formed (queueService w) →
  connected (queueService w) = true ∨ connectOutcome env = ConnectAccepted →
  sendAccepted env = true →
  validation req = [] →
  contentItems (db w) !! params_id req = Some item →
  ContentItem.userId item = user_id req ∨ user_role req = "admin" →
  ContentItem.status item = ContentItem.generated
  ∨ ContentItem.status item = ContentItem.draft →
  (publishContent env nowIso jobId req w).2 = PublishingStarted jobId (params_id req)
  ∧ (ContentItem.status
       <$> contentItems (db (publishContent env nowIso jobId req w).1) !! params_id req)
    = Some ContentItem.published
  ∧ connected (queueService (publishContent env nowIso jobId req w).1) = true.
Proof.
  intros Hs Hup Hsend Hv Hitem Hown Hst.
  pose proof (enqueue_declared_returns env "content-publishing"
                (PublishingJob jobId (params_id req) (user_id req) (integrationId req))
                (queueService w) Hs publishing_declared Hup Hsend) as [Hr Hcon].
  unfold publishContent. rewrite Hv, Hitem.
  replace (negb (bool_decide (ContentItem.userId item = user_id req))
           && negb (bool_decide (user_role req = "admin"))) with false
    by (destruct Hown as [Ho|Ho];
        rewrite (bool_decide_eq_true_2 _ Ho); cbn; [|rewrite andb_false_r]; reflexivity).
  replace (negb (bool_decide (ContentItem.status item = ContentItem.generated))
           && negb (bool_decide (ContentItem.status item = ContentItem.draft))) with false
    by (destruct Hst as [Ho|Ho];
        rewrite (bool_decide_eq_true_2 _ Ho); cbn; [|rewrite andb_false_r]; reflexivity).
  destruct (enqueue _ _ _ _) as [q' r]. cbn in Hr, Hcon. subst r. cbn.
  rewrite lookup_insert_eq. split; [reflexivity|]. split; [reflexivity | exact Hcon].
Qed.

(** X14. Scheduling writes before it queues.  In any state the service can
    reach, a valid schedule request by the owner or an admin for an item in
    draft or generated status with a date in the future is answered with an
    error (content-scheduling has no definition) and nothing is sent, yet
    the item keeps the new [scheduledAt] and the scheduling metadata. *)
Theorem failed_schedule_is_persisted (env : BrokerEnv) (now ms : Z) (iso jobId : string)
        (req : ContentController.ScheduleRequest) (w : World) (item : ContentItem.t) :
  reachable (queueService w) →
  ContentController.validation req = [] →
  contentItems (db w) !! ContentController.params_id req = Some item →
  ContentItem.userId item = ContentController.user_id req
  ∨ ContentController.user_role req = "admin" →
  ContentItem.status item = ContentItem.generated
  ∨ ContentItem.status item = ContentItem.draft →
  ContentController.scheduledDate req = ContentController.ValidDate ms iso →
  now < ms →
  (∃ e, (ContentController.scheduleContent env now jobId req w).2 = Next e)
  ∧ trace (queueService (ContentController.scheduleContent env now jobId req w).1)
    = trace (queueService w)
  ∧ ∃ item',
      contentItems (db (ContentController.scheduleContent env now jobId req w).1)
        !! ContentController.params_id req = Some item'
      ∧ ContentItem.scheduledAt item' = Some ms
      ∧ ContentItem.metadata item' !! "scheduledAt" = Some iso
      ∧ ContentItem.metadata item' !! "scheduledBy" = Some (ContentController.user_id req)
      ∧ ContentItem.status item' = ContentItem.status item.
Proof.
  intros Hs Hv Hitem Hown Hst Hdate Hfuture.
  unfold ContentController.scheduleContent. rewrite Hv, Hitem, Hdate.
  replace (negb (bool_decide (ContentItem.userId item = ContentController.user_id req))
           && negb (bool_decide (ContentController.user_role req = "admin"))) with false
    by (destruct Hown as [Ho|Ho];
        rewrite (bool_decide_eq_true_2 _ Ho); cbn; [|rewrite andb_false_r]; reflexivity).
  replace (negb (bool_decide (ContentItem.status item = ContentItem.generated))
           && negb (bool_decide (ContentItem.status item = ContentItem.draft))) with false
    by (destruct Hst as [Ho|Ho];
        rewrite (bool_decide_eq_true_2 _ Ho); cbn; [|rewrite andb_false_r]; reflexivity).
  destruct (Z.leb_spec ms now); [lia|].
  match goal with
  | |- context [enqueue env ?q ?m ?s] =>
      destruct (enqueue_undeclared_throws env q m s (reachable_queues_declared s Hs)
                  scheduling_undeclared scheduling_not_inherited) as [e He];
      destruct (enqueue_undeclared env q m s (reachable_queues_declared s Hs)
                  scheduling_undeclared scheduling_not_inherited) as [Ht _];
      destruct (enqueue env q m s) as [q' r]
  end.
  cbn in He, Ht. subst r. cbn.
  split; [eauto|]. split; [exact Ht|].
  eexists. rewrite lookup_insert_eq. split; [reflexivity|]. cbn.
  split; [reflexivity|].
  split; [rewrite lookup_insert_ne, lookup_insert_ne, lookup_insert_eq by discriminate;
          reflexivity|].
  split; [rewrite lookup_insert_ne, lookup_insert_ne, lookup_insert_ne, lookup_insert_eq
            by discriminate; reflexivity|].
  reflexivity.
Qed.

End Publishing.

(** X12 witness: the scenario item is published, then published again. *)
Lemma publish_twice_witness :
  ∃ code body,
    ContentPublishing.publishContent Scenario.broker_down "2030-01-02T00:00:00.000Z" "job-2"
      PublishingScenario.request
      (ContentPublishing.publishContent Scenario.broker_up "2030-01-01T00:00:00.000Z"
         "job-1" PublishingScenario.request PublishingScenario.world).1
    = ((ContentPublishing.publishContent Scenario.broker_up "2030-01-01T00:00:00.000Z"
          "job-1" PublishingScenario.request PublishingScenario.world).1,
       ContentPublishing.Replied (Json code body))
    ∧ (code = 400 ∨ code = 403).
Proof.
  apply (publish_twice_rejected Scenario.broker_up Scenario.broker_down
           "2030-01-01T00:00:00.000Z" "2030-01-02T00:00:00.000Z" "job-1" "job-2"
           PublishingScenario.request PublishingScenario.request
           PublishingScenario.world).
  - vm_compute. reflexivity.
  - reflexivity.
Defined.

(** X13 witness: the scenario item on a fresh service with the broker up. *)
Lemma publish_accepted_witness :
  (ContentPublishing.publishContent Scenario.broker_up "2030-01-01T00:00:00.000Z" "job-1"
     PublishingScenario.request PublishingScenario.world).2
  = ContentPublishing.PublishingStarted "job-1" "item-1".
Proof.
  apply (publish_accepted Scenario.broker_up "2030-01-01T00:00:00.000Z" "job-1"
           PublishingScenario.request PublishingScenario.world
           PublishingScenario.article).
  - apply reachable_well_formed. constructor.
  - right. reflexivity.
  - reflexivity.
  - reflexivity.
  - reflexivity.
  - left. reflexivity.
  - left. reflexivity.
Defined.

(** X14 witness: the scenario item scheduled for 2030 at time 0. *)
Lemma failed_schedule_witness :
  (∃ e, (ContentController.scheduleContent Scenario.broker_up 0 "job-1"
           Scenario.schedule_request PublishingScenario.world).2 = Next e)
  ∧ ∃ item',
      contentItems
        (db (ContentController.scheduleContent Scenario.broker_up 0 "job-1"
               Scenario.schedule_request PublishingScenario.world).1) !! "item-1"
      = Some item'
      ∧ ContentItem.scheduledAt item' = Some 1893456000000.
Proof.
  destruct (failed_schedule_is_persisted Scenario.broker_up 0 1893456000000
              "2030-01-01T00:00:00.000Z" "job-1" Scenario.schedule_request
              PublishingScenario.world PublishingScenario.article)
    as (He & _ & item' & Hi & Hs & _).
  - constructor.
  - reflexivity.
  - reflexivity.
  - left. reflexivity.
  - left. reflexivity.
  - reflexivity.
  - lia.
  - split; [exact He|]. exists item'. split; [exact Hi | exact Hs].
Defined.

(** ** What a submission and a cancellation leave alone *)
Section Frames.

Import GenerationController.

(** X15. A reservation is refunded at most once: after a cancellation
    answered 200, every further cancel request for the same generation, by
    its owner or by anyone else and whatever the broker does, is answered 400
    or 404 and changes nothing. *)
Theorem cancel_refunds_once (env env2 : BrokerEnv) (id userId userId2 : string)
        (w : World) (body : Body) :
  (cancelGeneration env id userId w).2 = Json 200 body →
  cancelGeneration env2 id userId2 (cancelGeneration env id userId w).1
  = ((cancelGeneration env id userId w).1, Design.NotCancellable)
  ∨ cancelGeneration env2 id userId2 (cancelGeneration env id userId w).1
    = ((cancelGeneration env id userId w).1,
       Json 404 (ErrorBody "Generation request not found")).
Proof.
  intros Hok. pose proof (cancelGeneration_outcome env id userId w) as Ho.
  cbv zeta in Ho.
  destruct (findGeneration (db w) id userId) as [g|];
    [|rewrite Ho in Hok; discriminate Hok].
  destruct (bool_decide (ContentGeneration.status g = ContentGeneration.queued));
    [|rewrite Ho in Hok; discriminate Hok].
  destruct Ho as (Hgen & _ & _).
  pose proof (cancelGeneration_outcome env2 id userId2 (cancelGeneration env id userId w).1)
    as Ho2.
  cbv zeta in Ho2. unfold findGeneration in Ho2 at 1.
  rewrite Hgen, lookup_insert_eq in Ho2. cbn in Ho2.
  destruct (bool_decide (ContentGeneration.userId g = userId2)); [left | right]; exact Ho2.
Qed.

(** X16. A cancel request touches two rows of the database at most: the
    generation it names and the requester's credit account, of which only
    [creditsRemaining] moves.  Every other generation, every other account,
    all content items and all templates are as before. *)
Theorem cancel_touches_only_its_rows (env : BrokerEnv) (id userId : string) (w : World) :
  (∀ other, other ≠ id →
     contentGenerations (db (cancelGeneration env id userId w).1) !! other
     = contentGenerations (db w) !! other)
  ∧ (∀ other, other ≠ userId →
       creditAccounts (db (cancelGeneration env id userId w).1) !! other
       = creditAccounts (db w) !! other)
  ∧ (CreditAccount.creditsUsed
       <$> creditAccounts (db (cancelGeneration env id userId w).1) !! userId)
    = (CreditAccount.creditsUsed <$> creditAccounts (db w) !! userId)
  ∧ (CreditAccount.monthlyAllowance
       <$> creditAccounts (db (cancelGeneration env id userId w).1) !! userId)
    = (CreditAccount.monthlyAllowance <$> creditAccounts (db w) !! userId)
  ∧ contentItems (db (cancelGeneration env id userId w).1) = contentItems (db w)
  ∧ templates (db (cancelGeneration env id userId w).1) = templates (db w).
Proof.
  unfold cancelGeneration.
  destruct (findGeneration (db w) id userId) as [g|];
    [|repeat split; auto].
  destruct (bool_decide (ContentGeneration.status g = ContentGeneration.queued));
    cbn [negb]; [|repeat split; auto].
  destruct (QueueService.removeFromQueue env "content-generation" id (queueService w))
    as [q' rr].
  cbn.
  destruct (creditAccounts (db w) !! userId) as [a|] eqn:Ha; cbn.
  - split; [intros other Ho; rewrite lookup_insert_ne by congruence; reflexivity|].
    split; [intros other Ho; rewrite lookup_insert_ne by congruence; reflexivity|].
    rewrite lookup_insert_eq. cbn. repeat split; reflexivity.
  - split; [intros other Ho; rewrite lookup_insert_ne by congruence; reflexivity|].
    split; [reflexivity|]. rewrite Ha. repeat split; reflexivity.
Qed.

(** X17. A submission touches three rows at most: the generation and the
    content item under the two fresh uuids and the requester's credit
    account, whose [creditsRemaining] can only go down and whose other
    columns stay.  Every other generation, content item and account and all
    templates are as before, whether the request is accepted, turned down or
    fails at the broker. *)
Theorem submission_touches_only_its_rows (env : BrokerEnv) (ids : Uuids)
        (req : Request) (w : World) :
  (∀ other, other ≠ generationUuid ids →
     contentGenerations (db (createGenerationRequest env ids req w).1) !! other
     = contentGenerations (db w) !! other)
  ∧ (∀ other, other ≠ contentItemUuid ids →
       contentItems (db (createGenerationRequest env ids req w).1) !! other
       = contentItems (db w) !! other)
  ∧ (∀ other, other ≠ user_id req →
       creditAccounts (db (createGenerationRequest env ids req w).1) !! other
       = creditAccounts (db w) !! other)
  ∧ (∀ a', creditAccounts (db (createGenerationRequest env ids req w).1) !! user_id req
           = Some a' →
       ∃ a, creditAccounts (db w) !! user_id req = Some a
            ∧ CreditAccount.creditsRemaining a' ≤ CreditAccount.creditsRemaining a
            ∧ CreditAccount.creditsUsed a' = CreditAccount.creditsUsed a
            ∧ CreditAccount.monthlyAllowance a' = CreditAccount.monthlyAllowance a)
  ∧ templates (db (createGenerationRequest env ids req w).1) = templates (db w).
Proof.
  pose proof (cost_of_nonneg req) as Hcost. unfold cost_of in Hcost.
  unfold createGenerationRequest.
  destruct (validation req); [|untouched].
  destruct (match negb (JS.default_to (isNewContent (body req)) true),
                  given (contentItemId (body req)) with
            | true, Some cid => Some (findContentItem (db w) cid (user_id req))
            | _, _ => None
            end) as [[found|]|] eqn:Hex; [|untouched|].
  all: destruct (given (templateId (body req))) as [tid|];
    [destruct (findTemplate (db w) tid (user_id req)); [|untouched]|].
  all: destruct (creditAccounts (db w) !! user_id req) as [a|] eqn:Ha; [|untouched].
  all: match goal with
       | |- context [?x <? ?y] => destruct (Z.ltb_spec x y); [untouched|]
       end.
  all: destruct (JS.default_to (isNewContent (body req)) true);
    cbn [negb] in Hex |- *; try discriminate Hex.
  all: try (destruct found as [itemId item]).
  all: try untouched.
  all: destruct (QueueService.enqueue _ _ _ _) as [q' [r|e]]; cbn.
  all: split; [intros other Ho; rewrite lookup_insert_ne by congruence; reflexivity|].
  all: split; [intros other Ho; rewrite ?lookup_insert_ne by congruence; reflexivity|].
  all: split; [intros other Ho; rewrite lookup_insert_ne by congruence; reflexivity|].
  all: split; [|reflexivity].
  all: intros a' Ha'; rewrite lookup_insert_eq in Ha'; injection Ha' as <-.
  all: eexists; split; [reflexivity|]; cbn; split; [lia|]; split; reflexivity.
Qed.

End Frames.

(** X15 witness: the scenario job cancelled twice. *)
Lemma cancel_refunds_once_witness :
  GenerationController.cancelGeneration Scenario.broker_up "gen-1" Scenario.alice
    (GenerationController.cancelGeneration Scenario.broker_up "gen-1" Scenario.alice
       (GenerationController.createGenerationRequest Scenario.broker_up Scenario.ids
          (Scenario.request 300) Scenario.world0).1).1
  = ((GenerationController.cancelGeneration Scenario.broker_up "gen-1" Scenario.alice
        (GenerationController.createGenerationRequest Scenario.broker_up Scenario.ids
           (Scenario.request 300) Scenario.world0).1).1,
     Design.NotCancellable)
  ∨ GenerationController.cancelGeneration Scenario.broker_up "gen-1" Scenario.alice
      (GenerationController.cancelGeneration Scenario.broker_up "gen-1" Scenario.alice
         (GenerationController.createGenerationRequest Scenario.broker_up Scenario.ids
            (Scenario.request 300) Scenario.world0).1).1
    = ((GenerationController.cancelGeneration Scenario.broker_up "gen-1" Scenario.alice
          (GenerationController.createGenerationRequest Scenario.broker_up Scenario.ids
             (Scenario.request 300) Scenario.world0).1).1,
       Json 404 (ErrorBody "Generation request not found")).
Proof.
  apply (cancel_refunds_once Scenario.broker_up Scenario.broker_up "gen-1"
           Scenario.alice Scenario.alice
           (GenerationController.createGenerationRequest Scenario.broker_up Scenario.ids
              (Scenario.request 300) Scenario.world0).1
           (GenerationCancelled "Generation request cancelled successfully" "gen-1" 300)).
  vm_compute. reflexivity.
Defined.
